(** * The PRRTE debugger attach example and the SLURM schizo helper

  A shallow embedding of
    - [examples/debugger/attach.c]: the tool that attaches to a running
      job, spawns a debugger daemon, gathers its forwarded output and
      waits for it to terminate;
    - [src/mca/schizo/slurm/schizo_slurm.c]: [get_remaining_time].

  C objects are modelled as the code has them: machine integers are [Z]
  with the conversions written out, memory blocks are lists of bytes, a
  [char *] is the list of bytes found at the pointer (the end of the list
  acts as a terminator), structs are records and the file-scope variables
  of [attach.c] are the fields of one state record that every function
  threads through a small state-and-stop monad.  Calls into the PMIx
  library are answered by an explicit [world] record; every such call,
  every line written to [stderr], every wake-up of a lock and every
  acknowledgement handed back to the event pipeline is appended to a
  trace, so that "was this step performed" is a question about the trace.
  Progress lines written with [printf] are left out of the trace, except
  the final display of the forwarded output.  One callback of [attach.c]
  is never reached and is not embedded: [cbfunc], the callback of a
  non-blocking query the tool does not issue.  [debugger.h] and the event
  dispatch of the PMIx library are not among the sources; what the
  statements need of them is modelled from the specification. *)

From Stdlib.Strings Require Import String Byte.
From Stdlib Require Import ZArith List Bool Lia.
Import ListNotations.
Open Scope Z_scope.

(** ** Machine integers *)

Module CInt.

(** Conversion to [int] (32 bits, two's complement). *)
Definition int_of_Z (z : Z) : Z := (z + 2 ^ 31) mod 2 ^ 32 - 2 ^ 31.

(** Conversion to [long] (64 bits, two's complement). *)
Definition long_of_Z (z : Z) : Z := (z + 2 ^ 63) mod 2 ^ 64 - 2 ^ 63.

(** Conversion to [size_t] (64 bits, unsigned). *)
Definition size_t_of_Z (z : Z) : Z := z mod 2 ^ 64.

(** Conversion to [uint32_t]. *)
Definition uint32_of_Z (z : Z) : Z := z mod 2 ^ 32.

Definition INT_MAX : Z := 2 ^ 31 - 1.
Definition UINT32_MAX : Z := 2 ^ 32 - 1.

End CInt.

(** ** Memory blocks *)

Module Mem.

Definition block := list byte.

Definition size (b : list byte) : Z := Z.of_nat (length b).

(** What the allocator answers: [alloc_ok n] tells whether a request for
    [n] bytes is granted, [garbage i] is the byte found at offset [i] of
    storage that was never written. *)
Record heap := {
  alloc_ok : Z -> bool;
  garbage : nat -> byte
}.

Definition uninit (h : heap) (from n : nat) : block :=
  map (garbage h) (seq from n).

(** [malloc(n)]: [None] is the null pointer. *)
Definition malloc (h : heap) (n : Z) : option block :=
  if alloc_ok h n then Some (uninit h 0 (Z.to_nat n)) else None.

(** [realloc(old, n)]: the contents are kept up to the smaller of the two
    sizes. *)
Definition realloc (h : heap) (old : block) (n : Z) : option block :=
  if alloc_ok h n
  then Some (firstn (Z.to_nat n) old
             ++ uninit h (length old) (Z.to_nat n - length old))
  else None.

(** [memcpy(&dst[off], src, |src|)]: [None] when the copy would leave the
    block (undefined behaviour). *)
Definition memcpy (dst : block) (off : Z) (src : list byte) : option block :=
  if (0 <=? off) && (off + size src <=? size dst)
  then Some (firstn (Z.to_nat off) dst ++ src
             ++ skipn (Z.to_nat off + length src) dst)
  else None.

(** [dst[off] = b]. *)
Definition store (dst : block) (off : Z) (b : byte) : option block :=
  memcpy dst off [b].

End Mem.

(** ** C strings *)

Module CStr.

Definition NUL : byte := x00.

Definition uchar (b : byte) : Z := Z.of_N (Byte.to_N b).

(** The string a [char *] designates: the bytes before the first
    terminator. *)
Fixpoint c_str (s : list byte) : list byte :=
  match s with
  | [] => []
  | b :: t => if Byte.eqb b NUL then [] else b :: c_str t
  end.

Definition strlen (s : list byte) : Z := Z.of_nat (length (c_str s)).

(** [strchr(s, c)]: the offset of the first [c] in the string, [None]
    for a null result. *)
Fixpoint strchr (s : list byte) (c : byte) : option Z :=
  match s with
  | [] => if Byte.eqb c NUL then Some 0 else None
  | b :: t =>
      if Byte.eqb b c then Some 0
      else if Byte.eqb b NUL then None
      else option_map Z.succ (strchr t c)
  end.

(** [strncmp(s1, s2, n)]. *)
Fixpoint strncmp (s1 s2 : list byte) (n : nat) : Z :=
  match n with
  | O => 0
  | S n' =>
      match s1, s2 with
      | [], [] => 0
      | [], b :: _ => 0 - uchar b
      | a :: _, [] => uchar a
      | a :: t1, b :: t2 =>
          if Byte.eqb a b
          then (if Byte.eqb a NUL then 0 else strncmp t1 t2 n')
          else uchar a - uchar b
      end
  end.

(** [strncpy(dst, src, n)]: [n] bytes are written, the string and then
    terminators when it is shorter than [n]. *)
Definition strncpy (dst src : list byte) (n : Z) : option (list byte) :=
  let s := c_str src in
  let k := Z.to_nat n in
  Mem.memcpy dst 0 (firstn k s ++ repeat NUL (k - length s)).

Definition lit (s : string) : list byte := list_byte_of_string s.

End CStr.

(** ** What the tool uses of [pmix_common.h] *)

Module Pmix.
Import CStr.

(** The header belongs to the PMIx library.  Of the values below the
    proofs rely on [PMIX_SUCCESS] being 0, on the size of the namespace
    buffer, and on the three event keys being different strings. *)
Definition pmix_status_t := Z.
Definition PMIX_SUCCESS : pmix_status_t := 0.
Definition PMIX_ERR_JOB_TERMINATED : pmix_status_t := -145.
Definition PMIX_EVENT_ACTION_COMPLETE : pmix_status_t := -334.

Definition PMIX_MAX_NSLEN : Z := 255.
Definition PMIX_MAX_KEYLEN : nat := 511.
Definition PMIX_RANK_WILDCARD : Z := CInt.UINT32_MAX - 1.

(** Attribute keys. *)
Definition PMIX_EVENT_RETURN_OBJECT := lit "pmix.evobject".
Definition PMIX_EXIT_CODE := lit "pmix.exit.code".
Definition PMIX_EVENT_AFFECTED_PROC := lit "pmix.evproc".
Definition PMIX_QUERY_NAMESPACES := lit "pmix.qry.ns".
Definition PMIX_NSPACE := lit "pmix.nspace".
Definition PMIX_RANK := lit "pmix.rank".
Definition PMIX_HOST := lit "pmix.host".
Definition PMIX_MAPBY := lit "pmix.mapby".
Definition PMIX_DEBUGGER_DAEMONS := lit "pmix.debugger".
Definition PMIX_DEBUG_JOB := lit "pmix.dbg.job".
Definition PMIX_FWD_STDOUT := lit "pmix.fwd.stdout".
Definition PMIX_FWD_STDERR := lit "pmix.fwd.stderr".
Definition PMIX_REQUESTOR_IS_TOOL := lit "pmix.req.tool".
Definition PMIX_LAUNCHER := lit "pmix.tool.launcher".
Definition PMIX_IOF_REDIRECT := lit "pmix.iof.redir".

(** [pmix_data_type_t], the tags the tool names. *)
Inductive pmix_data_type :=
| PMIX_UNDEF | PMIX_BOOL | PMIX_STRING | PMIX_INT | PMIX_INT32
| PMIX_PROC | PMIX_POINTER | PMIX_BYTE_OBJECT.

Definition pmix_data_type_eqb (a b : pmix_data_type) : bool :=
  match a, b with
  | PMIX_UNDEF, PMIX_UNDEF | PMIX_BOOL, PMIX_BOOL
  | PMIX_STRING, PMIX_STRING | PMIX_INT, PMIX_INT
  | PMIX_INT32, PMIX_INT32 | PMIX_PROC, PMIX_PROC
  | PMIX_POINTER, PMIX_POINTER
  | PMIX_BYTE_OBJECT, PMIX_BYTE_OBJECT => true
  | _, _ => false
  end.

(** [pmix_proc_t]. *)
Record pmix_proc_t := {
  nspace : list byte;
  rank : Z
}.

(** [PMIX_PROC_LOAD]. *)
Definition PMIX_PROC_LOAD (ns : list byte) (r : Z) : pmix_proc_t :=
  {| nspace := ns; rank := r |}.

(** The objects of the tool a [void *] can designate; a pointer is
    [None] when it is null. *)
Inductive obj := main_mylock | attach_mylock | attach_iof_lock | attach_myrel.

Definition pointer := option obj.

(** [pmix_value_t]: the type tag and the union.  A read of the union
    through a member returns that member's field; the fields are
    independent, so every content of the union is covered. *)
Record pmix_value_t := {
  type : pmix_data_type;
  data_flag : bool;
  data_integer : Z;
  data_string : list byte;
  data_ptr : pointer;
  data_proc : option pmix_proc_t
}.

Record pmix_info_t := {
  key : list byte;
  value : pmix_value_t
}.

(** [PMIX_INFO_LOAD(&info, key, data, type)] for the types the tool
    loads.  A null [data] with [PMIX_BOOL] loads [true]. *)
Definition load_bool (k : list byte) : pmix_info_t :=
  {| key := k;
     value := {| type := PMIX_BOOL; data_flag := true; data_integer := 0;
                 data_string := []; data_ptr := None; data_proc := None |} |}.

Definition load_string (k s : list byte) : pmix_info_t :=
  {| key := k;
     value := {| type := PMIX_STRING; data_flag := false; data_integer := 0;
                 data_string := c_str s; data_ptr := None;
                 data_proc := None |} |}.

Definition load_int32 (k : list byte) (n : Z) : pmix_info_t :=
  {| key := k;
     value := {| type := PMIX_INT32; data_flag := false; data_integer := n;
                 data_string := []; data_ptr := None; data_proc := None |} |}.

Definition load_pointer (k : list byte) (p : pointer) : pmix_info_t :=
  {| key := k;
     value := {| type := PMIX_POINTER; data_flag := false; data_integer := 0;
                 data_string := []; data_ptr := p; data_proc := None |} |}.

Definition load_proc (k : list byte) (p : pmix_proc_t) : pmix_info_t :=
  {| key := k;
     value := {| type := PMIX_PROC; data_flag := false; data_integer := 0;
                 data_string := []; data_ptr := None;
                 data_proc := Some p |} |}.

(** [pmix_app_t], the fields the tool fills. *)
Record pmix_app_t := {
  cmd : list byte;
  argv : list (list byte);
  env : list (list byte);
  app_ninfo : Z;
  maxprocs : Z
}.

End Pmix.

(** ** The helpers of [debugger.h] *)

Module Debugger.
Import Pmix.

(** Modelled from the spec: [debugger.h], which declares [mylock_t] and
    [myrel_t] and defines the [DEBUG_*] lock macros, is not among the
    sources.  The spec's Wait-Lock is [{signaled, status}]: construction
    gives an unsignaled lock, a signal marks it signaled and wakes the
    waiter, a wait blocks until the lock is signaled. *)
Record mylock_t := {
  signaled : bool;
  status : pmix_status_t
}.

Definition DEBUG_CONSTRUCT_LOCK : mylock_t :=
  {| signaled := false; status := PMIX_SUCCESS |}.

Definition DEBUG_WAKEUP_THREAD (l : mylock_t) : mylock_t :=
  {| signaled := true; status := status l |}.

Definition set_status (s : pmix_status_t) (l : mylock_t) : mylock_t :=
  {| signaled := signaled l; status := s |}.

(** Modelled from the spec: the Termination Record [myrel_t] is
    [{namespace, Wait-Lock, exit_code, exit_code_present}]; its lock is
    kept with the other locks, under the record's own address. *)
Record myrel_t := {
  rel_nspace : list byte;
  exit_code : Z;
  exit_code_given : bool
}.

End Debugger.

(** ** [attach.c] *)

Module Attach.
Import CInt CStr Pmix Debugger.

(** *** What the tool does to the outside *)

(** The lines written to [stderr]. *)
Inductive message :=
| Usage (argv0 : list byte)
| Tool_init_failed (rc : Z)
| Failed_to_attach (nspace : list byte) (rc : Z)
| Unable_to_allocate
| Lock_not_returned
| Handler_registration_failed (status ref : Z)
| Error_spawning (rc : Z)
| Error_creating_query
| Error_querying (rc : Z)
| Wrong_format.

Inductive handler := notification_fn_ptr | release_fn_ptr.

(** The PMIx entry points the tool calls, with what it passes. *)
Inductive call :=
| PMIx_tool_init (info : list pmix_info_t)
| PMIx_tool_finalize
| PMIx_Register_event_handler
    (codes : list pmix_status_t) (info : list pmix_info_t)
    (evhdlr : handler) (cbdata : pointer)
| PMIx_Query_info (keys : list (list byte)) (qualifiers : list pmix_info_t)
| PMIx_Spawn (info : list pmix_info_t) (app : pmix_app_t)
| PMIx_IOF_pull (proc : pmix_proc_t) (info : list pmix_info_t)
    (cbdata : pointer)
| PMIx_IOF_deregister (iofhdlr : Z).

Inductive event :=
| Call (c : call)
| Stderr (m : message)
| Forwarded_stdio (text : list byte)
| Wakeup (o : obj)
| Notified (status : pmix_status_t).

(** *** The state: file-scope variables, the locks, the record, the trace *)

Record state := {
  application_namespace : list byte;
  iof_data : option (list byte);
  iof_size : Z;
  iof_registered : Z;
  iof_handler_id : Z;
  locks : obj -> mylock_t;
  myrel : myrel_t;
  trace : list event
}.

Definition initial_state : state :=
  {| application_namespace := repeat NUL (Z.to_nat (PMIX_MAX_NSLEN + 1));
     iof_data := None;
     iof_size := 0;
     iof_registered := 0;
     iof_handler_id := 0;
     locks := fun _ => {| signaled := false; status := 0 |};
     myrel := {| rel_nspace := []; exit_code := 0;
                 exit_code_given := false |};
     trace := [] |}.

Definition with_application_namespace (v : list byte) (st : state) :=
  {| application_namespace := v; iof_data := iof_data st;
     iof_size := iof_size st; iof_registered := iof_registered st;
     iof_handler_id := iof_handler_id st; locks := locks st;
     myrel := myrel st; trace := trace st |}.

Definition with_iof_data (v : option (list byte)) (st : state) :=
  {| application_namespace := application_namespace st; iof_data := v;
     iof_size := iof_size st; iof_registered := iof_registered st;
     iof_handler_id := iof_handler_id st; locks := locks st;
     myrel := myrel st; trace := trace st |}.

Definition with_iof_size (v : Z) (st : state) :=
  {| application_namespace := application_namespace st;
     iof_data := iof_data st; iof_size := v;
     iof_registered := iof_registered st;
     iof_handler_id := iof_handler_id st; locks := locks st;
     myrel := myrel st; trace := trace st |}.

Definition with_iof_registered (v : Z) (st : state) :=
  {| application_namespace := application_namespace st;
     iof_data := iof_data st; iof_size := iof_size st;
     iof_registered := v; iof_handler_id := iof_handler_id st;
     locks := locks st; myrel := myrel st; trace := trace st |}.

Definition with_iof_handler_id (v : Z) (st : state) :=
  {| application_namespace := application_namespace st;
     iof_data := iof_data st; iof_size := iof_size st;
     iof_registered := iof_registered st; iof_handler_id := v;
     locks := locks st; myrel := myrel st; trace := trace st |}.

Definition with_locks (v : obj -> mylock_t) (st : state) :=
  {| application_namespace := application_namespace st;
     iof_data := iof_data st; iof_size := iof_size st;
     iof_registered := iof_registered st;
     iof_handler_id := iof_handler_id st; locks := v;
     myrel := myrel st; trace := trace st |}.

Definition with_myrel (v : myrel_t) (st : state) :=
  {| application_namespace := application_namespace st;
     iof_data := iof_data st; iof_size := iof_size st;
     iof_registered := iof_registered st;
     iof_handler_id := iof_handler_id st; locks := locks st;
     myrel := v; trace := trace st |}.

Definition with_trace (v : list event) (st : state) :=
  {| application_namespace := application_namespace st;
     iof_data := iof_data st; iof_size := iof_size st;
     iof_registered := iof_registered st;
     iof_handler_id := iof_handler_id st; locks := locks st;
     myrel := myrel st; trace := v |}.

Definition obj_eqb (a b : obj) : bool :=
  match a, b with
  | main_mylock, main_mylock | attach_mylock, attach_mylock
  | attach_iof_lock, attach_iof_lock | attach_myrel, attach_myrel => true
  | _, _ => false
  end.

(** *** The monad: state, and an early stop *)

(** How a run ends when it does not return: [exit(code)], a wait that is
    never woken, or undefined behaviour. *)
Inductive stop := Exit (code : Z) | Hang | Undefined.

Inductive result (A : Type) :=
| Ret (a : A)
| Stop (s : stop).
Arguments Ret {A} a.
Arguments Stop {A} s.

Definition M (A : Type) := state -> result A * state.

Definition ret {A} (a : A) : M A := fun st => (Ret a, st).

Definition bind {A B} (m : M A) (k : A -> M B) : M B :=
  fun st =>
    match m st with
    | (Ret a, st') => k a st'
    | (Stop s, st') => (Stop s, st')
    end.

Notation "x <- m ;; k" := (bind m (fun x => k))
  (at level 61, m at next level, right associativity).
Notation "m ;; k" := (bind m (fun _ => k))
  (at level 61, right associativity).

Definition get : M state := fun st => (Ret st, st).
Definition modify (f : state -> state) : M unit := fun st => (Ret tt, f st).
Definition halt {A} (s : stop) : M A := fun st => (Stop s, st).
Definition emit (e : event) : M unit :=
  modify (fun st => with_trace (trace st ++ [e]) st).
Definition when (b : bool) (m : M unit) : M unit :=
  if b then m else ret tt.

(** An access that is only defined inside its block. *)
Definition defined {A} (o : option A) : M A :=
  match o with Some a => ret a | None => halt Undefined end.

Fixpoint for_each {A} (l : list A) (body : A -> M unit) : M unit :=
  match l with
  | [] => ret tt
  | a :: t => body a ;; for_each t body
  end.

(** *** The lock macros on the state *)

Definition update_lock (o : obj) (f : mylock_t -> mylock_t) : M unit :=
  modify (fun st =>
    with_locks (fun o' => if obj_eqb o o' then f (locks st o) else locks st o')
               st).

Definition construct_lock (o : obj) : M unit :=
  update_lock o (fun _ => DEBUG_CONSTRUCT_LOCK).

Definition wakeup_thread (o : obj) : M unit :=
  update_lock o DEBUG_WAKEUP_THREAD ;; emit (Wakeup o).

Definition wait_thread (o : obj) : M unit :=
  st <- get ;;
  if signaled (locks st o) then ret tt else halt Hang.

(** *** [stdio_callback]

    The payload is a [pmix_byte_object_t]: its [bytes], whose number is
    its [size]. *)
Definition stdio_callback (h : Mem.heap) (payload : list byte) : M unit :=
  st <- get ;;
  match iof_data st with
  | None =>
      modify (with_iof_size (int_of_Z (Mem.size payload))) ;;
      st <- get ;;
      modify (with_iof_data
                (Mem.malloc h (size_t_of_Z (int_of_Z (iof_size st + 1))))) ;;
      st <- get ;;
      match iof_data st with
      | None => emit (Stderr Unable_to_allocate) ;; halt (Exit 1)
      | Some blk =>
          blk <- defined (Mem.memcpy blk 0 payload) ;;
          blk <- defined (Mem.store blk (Mem.size payload) NUL) ;;
          modify (with_iof_data (Some blk))
      end
  | Some old =>
      modify (with_iof_data
                (Mem.realloc h old
                   (size_t_of_Z
                      (size_t_of_Z (iof_size st) + Mem.size payload + 1)))) ;;
      st <- get ;;
      match iof_data st with
      | None => emit (Stderr Unable_to_allocate) ;; halt (Exit 1)
      | Some blk =>
          blk <- defined (Mem.memcpy blk (iof_size st) payload) ;;
          modify (with_iof_size
                    (int_of_Z
                       (size_t_of_Z
                          (size_t_of_Z (iof_size st) + Mem.size payload)))) ;;
          st <- get ;;
          blk <- defined (Mem.store blk (iof_size st) NUL) ;;
          modify (with_iof_data (Some blk))
      end
  end.

(** *** [release_fn] *)

(** The locals the scan of the attributes assigns.  [exit_code] is not
    initialised in the source; it is read only when [found] is set, that
    is after it was assigned. *)
Record release_locals := {
  lock : pointer;
  found : bool;
  rl_exit_code : Z;
  affected : option pmix_proc_t
}.

Definition key_is (i : pmix_info_t) (k : list byte) : bool :=
  strncmp (key i) k PMIX_MAX_KEYLEN =? 0.

Definition release_scan_step (l : release_locals) (i : pmix_info_t)
  : release_locals :=
  if key_is i PMIX_EVENT_RETURN_OBJECT then
    {| lock := data_ptr (value i); found := found l;
       rl_exit_code := rl_exit_code l; affected := affected l |}
  else if key_is i PMIX_EXIT_CODE then
    {| lock := lock l; found := true;
       rl_exit_code := data_integer (value i); affected := affected l |}
  else if key_is i PMIX_EVENT_AFFECTED_PROC then
    {| lock := lock l; found := found l;
       rl_exit_code := rl_exit_code l; affected := data_proc (value i) |}
  else l.

Definition release_scan (info : list pmix_info_t) : release_locals :=
  fold_left release_scan_step info
    {| lock := None; found := false; rl_exit_code := 0; affected := None |}.

(** The cast [(myrel_t* )ptr]: the only [myrel_t] is [myrel]. *)
Definition as_myrel (o : obj) : M obj :=
  match o with
  | attach_myrel => ret attach_myrel
  | _ => halt Undefined
  end.

(** [cbfunc] tells whether the pipeline handed a continuation (a
    non-null [cbfunc]); calling it is the event [Notified]. *)
Definition release_fn (info : list pmix_info_t) (cbfunc : bool) : M unit :=
  let l := release_scan info in
  match lock l with
  | None =>
      emit (Stderr Lock_not_returned) ;;
      when cbfunc (emit (Notified PMIX_SUCCESS))
  | Some o =>
      rel <- as_myrel o ;;
      when (found l)
        (modify (fun st =>
           with_myrel {| rel_nspace := rel_nspace (myrel st);
                         exit_code := rl_exit_code l;
                         exit_code_given := true |} st)) ;;
      wakeup_thread rel ;;
      when cbfunc (emit (Notified PMIX_EVENT_ACTION_COMPLETE)) ;;
      wakeup_thread rel
  end.

(** *** [evhandler_reg_callbk] and [iof_reg_callbk] *)

Definition evhandler_reg_callbk (status evhandler_ref : Z) (cbdata : pointer)
  : M unit :=
  when (negb (status =? PMIX_SUCCESS))
    (emit (Stderr (Handler_registration_failed status evhandler_ref))) ;;
  match cbdata with
  | None => ret tt
  | Some lock =>
      update_lock lock (set_status status) ;;
      wakeup_thread lock
  end.

Definition iof_reg_callbk (status evhandler_ref : Z) (cbdata : pointer)
  : M unit :=
  when (negb (status =? PMIX_SUCCESS))
    (emit (Stderr (Handler_registration_failed status evhandler_ref))) ;;
  modify (with_iof_handler_id evhandler_ref) ;;
  match cbdata with
  | None => ret tt
  | Some lock =>
      st <- get ;;
      if negb (iof_registered st =? 0) then ret tt
      else
        modify (with_iof_registered 1) ;;
        update_lock lock (set_status status) ;;
        wakeup_thread lock
  end.

(** *** The PMIx library, as the tool sees it *)

(** What the runtime hands to the tool's callbacks while the tool
    waits for the daemon: a chunk of forwarded output, or a termination
    event with its attributes. *)
Inductive delivery :=
| Chunk (payload : list byte)
| Termination (info : list pmix_info_t) (cbfunc : bool).

(** The answers of the library.  A registration-complete callback is
    called with [(status, reference)], or never ([None]). *)
Record world := {
  w_heap : Mem.heap;
  w_tool_init : pmix_status_t;
  w_default_registration : option (Z * Z);
  w_argv_append : pmix_status_t;
  w_query : pmix_status_t * list pmix_info_t;
  w_spawn : pmix_status_t * list byte;
  w_iof_registration : option (Z * Z);
  w_watch_registration : option (Z * Z);
  w_deliveries : list delivery;
  w_iof_deregister : pmix_status_t
}.

Definition fire (r : option (Z * Z)) (callbk : Z -> Z -> M unit) : M unit :=
  match r with
  | Some (status, ref) => callbk status ref
  | None => ret tt
  end.

Definition deliver (h : Mem.heap) (d : delivery) : M unit :=
  match d with
  | Chunk payload => stdio_callback h payload
  | Termination info cbfunc => release_fn info cbfunc
  end.

(** *** [query_application_namespace]

    The copy and the terminator are written straight into
    [application_namespace].  A run that ends in [Undefined] has written
    outside the buffer: the state that comes with it is the one before
    the copy, and says nothing of what memory holds afterwards. *)

Definition comma : byte := x2c.

Definition query_application_namespace (w : world) (nspace : list byte)
  : M Z :=
  let rc := w_argv_append w in
  if negb (PMIX_SUCCESS =? rc) then
    emit (Stderr Error_creating_query) ;; ret (-1)
  else
    emit (Call (PMIx_Query_info [PMIX_QUERY_NAMESPACES]
                  [load_string PMIX_NSPACE nspace;
                   load_int32 PMIX_RANK (int_of_Z PMIX_RANK_WILDCARD)])) ;;
    let (rc, namespace_query_data) := w_query w in
    if negb (PMIX_SUCCESS =? rc) then
      emit (Stderr (Error_querying rc)) ;; ret (-1)
    else
      match namespace_query_data with
      | [d] =>
          if negb (pmix_data_type_eqb PMIX_STRING (type (value d))) then
            emit (Stderr Wrong_format) ;; ret (-1)
          else
            let s := data_string (value d) in
            let len :=
              match strchr s comma with
              | None => int_of_Z (strlen s)
              | Some p => int_of_Z p
              end in
            st <- get ;;
            buf <- defined (strncpy (application_namespace st) s
                              (size_t_of_Z len)) ;;
            buf <- defined (Mem.store buf len NUL) ;;
            modify (with_application_namespace buf) ;;
            ret 0
      | _ => emit (Stderr Wrong_format) ;; ret (-1)
      end.

(** *** [attach_to_running_job] *)

Definition localhost := lit "c685f8n0x".

Definition daemon_app : pmix_app_t :=
  {| cmd := lit "./daemon"; argv := [lit "./daemon"]; env := [];
     app_ninfo := 0; maxprocs := 1 |}.

Definition spawn_directives (application_namespace : list byte)
  : list pmix_info_t :=
  [ load_string PMIX_HOST localhost;
    load_string PMIX_MAPBY (lit "ppr:1:node");
    load_bool PMIX_DEBUGGER_DAEMONS;
    load_string PMIX_DEBUG_JOB application_namespace;
    load_bool PMIX_FWD_STDOUT;
    load_bool PMIX_FWD_STDERR;
    load_bool PMIX_REQUESTOR_IS_TOOL ].

Definition watch_qualifiers (daemon_proc : pmix_proc_t) : list pmix_info_t :=
  [ load_pointer PMIX_EVENT_RETURN_OBJECT (Some attach_myrel);
    load_proc PMIX_EVENT_AFFECTED_PROC daemon_proc ].

Definition attach_to_running_job (w : world) (nspace : list byte) : M Z :=
  query_application_namespace w nspace ;;
  st <- get ;;
  emit (Call (PMIx_Spawn (spawn_directives (application_namespace st))
                daemon_app)) ;;
  let (rc, dspace) := w_spawn w in
  if negb (PMIX_SUCCESS =? rc) then
    emit (Stderr (Error_spawning rc)) ;; ret (-1)
  else
    let daemon_proc := PMIX_PROC_LOAD dspace PMIX_RANK_WILDCARD in
    construct_lock attach_iof_lock ;;
    emit (Call (PMIx_IOF_pull daemon_proc [load_bool PMIX_IOF_REDIRECT]
                  (Some attach_iof_lock))) ;;
    fire (w_iof_registration w)
         (fun status ref => iof_reg_callbk status ref (Some attach_iof_lock)) ;;
    wait_thread attach_iof_lock ;;
    construct_lock attach_myrel ;;
    modify (fun st =>
      with_myrel {| rel_nspace := c_str dspace;
                    exit_code := exit_code (myrel st);
                    exit_code_given := exit_code_given (myrel st) |} st) ;;
    construct_lock attach_mylock ;;
    emit (Call (PMIx_Register_event_handler [PMIX_ERR_JOB_TERMINATED]
                  (watch_qualifiers daemon_proc) release_fn_ptr
                  (Some attach_mylock))) ;;
    fire (w_watch_registration w)
         (fun status ref => evhandler_reg_callbk status ref
                              (Some attach_mylock)) ;;
    wait_thread attach_mylock ;;
    st <- get ;;
    let rc := status (locks st attach_mylock) in
    for_each (w_deliveries w) (deliver (w_heap w)) ;;
    wait_thread attach_myrel ;;
    ret rc.

(** *** [main]

    With no argument at all [argv[0]] is the null pointer, and the C
    library prints a null string given to ["%s"] as ["(null)"]. *)

Definition main (w : world) (argv : list (list byte)) : M Z :=
  let argc := Z.of_nat (length argv) in
  if argc <? 2 then
    emit (Stderr (Usage (nth 0 argv (lit "(null)")))) ;; halt (Exit 1)
  else
    let nspace := c_str (nth 1 argv []) in
    emit (Call (PMIx_tool_init [load_bool PMIX_LAUNCHER])) ;;
    let rc := w_tool_init w in
    if negb (PMIX_SUCCESS =? rc) then
      emit (Stderr (Tool_init_failed rc)) ;; halt (Exit rc)
    else
      construct_lock main_mylock ;;
      emit (Call (PMIx_Register_event_handler [] [] notification_fn_ptr
                    (Some main_mylock))) ;;
      fire (w_default_registration w)
           (fun status ref => evhandler_reg_callbk status ref
                                (Some main_mylock)) ;;
      wait_thread main_mylock ;;
      rc <- attach_to_running_job w nspace ;;
      when (negb (PMIX_SUCCESS =? rc))
        (emit (Stderr (Failed_to_attach nspace rc))) ;;
      st <- get ;;
      emit (Call (PMIx_IOF_deregister (iof_handler_id st))) ;;
      let rc := w_iof_deregister w in
      emit (Call PMIx_tool_finalize) ;;
      st <- get ;;
      match iof_data st with
      | Some text => emit (Forwarded_stdio (c_str text))
      | None => ret tt
      end ;;
      ret rc.

(** The status the process ends with: the value [main] returns or the
    argument of [exit]; none when the run does not end. *)
Definition exit_status (r : result Z) : option Z :=
  match r with
  | Ret rc => Some rc
  | Stop (Exit code) => Some code
  | Stop Hang | Stop Undefined => None
  end.

Definition run_main (w : world) (argv : list (list byte)) : option Z * state :=
  let (r, st) := main w argv initial_state in (exit_status r, st).

(** *** [notification_fn]

    The default handler: it only hands [PMIX_SUCCESS] back to the
    pipeline when a continuation was given. *)
Definition notification_fn (cbfunc : bool) : M unit :=
  when cbfunc (emit (Notified PMIX_SUCCESS)).

End Attach.

(** ** [schizo_slurm.c] *)

Module SchizoSlurm.
Import CInt.

(** The PRRTE status codes the helper returns. *)
Inductive prte_status :=
| PRTE_SUCCESS
| PRTE_ERR_TAKE_NEXT_OPTION
| PRTE_ERR_OUT_OF_RESOURCE
| PRTE_ERR_FILE_OPEN_FAILURE
| PRTE_ERR_FILE_READ_FAILURE.

(** What the helper meets outside: the environment variable, the
    formatting of the command, the pipe, the line read, and the fields
    [prte_argv_split] makes of that line, each already converted by
    [strtol(field, NULL, 10)] (a [long]). *)
Record environment := {
  getenv_SLURM_JOBID : option (list byte);
  prte_asprintf : list byte -> Z;
  popen_ok : bool;
  fgets_ok : bool;
  fields : list Z
}.

(** [res[i]] read through [strtol]; outside the array the access is
    undefined. *)
Definition field (res : list Z) (i : Z) : option Z :=
  if (0 <=? i) && (i <? Z.of_nat (length res))
  then nth_error res (Z.to_nat i) else None.

(** [tleft += k * strtol(...)]: the product and the sum are made in
    [long], the assignment converts to [uint32_t]. *)
Definition add_field (tleft k v : Z) : Z :=
  uint32_of_Z (long_of_Z (tleft + long_of_Z (k * v))).

(** The result is the status returned and the value left in
    [*timeleft]; [None] when the run is undefined. *)
Definition get_remaining_time (e : environment) (timeleft : Z)
  : option (prte_status * Z) :=
  let timeleft := UINT32_MAX in
  match getenv_SLURM_JOBID e with
  | None => Some (PRTE_ERR_TAKE_NEXT_OPTION, timeleft)
  | Some jobid =>
      if 0 >? prte_asprintf e jobid
      then Some (PRTE_ERR_OUT_OF_RESOURCE, timeleft)
      else if negb (popen_ok e)
      then Some (PRTE_ERR_FILE_OPEN_FAILURE, timeleft)
      else if negb (fgets_ok e)
      then Some (PRTE_ERR_FILE_READ_FAILURE, timeleft)
      else
        let res := fields e in
        let cnt := size_t_of_Z (Z.of_nat (length res)) in
        match field res (cnt - 1) with
        | None => None
        | Some f1 =>
            let tleft := uint32_of_Z f1 in
            match (if 1 <? cnt
                   then option_map (add_field tleft 60) (field res (cnt - 2))
                   else Some tleft) with
            | None => None
            | Some tleft =>
            match (if 2 <? cnt
                   then option_map (add_field tleft 3600)
                                   (field res (cnt - 3))
                   else Some tleft) with
            | None => None
            | Some tleft =>
            match (if 3 <? cnt
                   then option_map (add_field tleft (24 * 3600))
                                   (field res (cnt - 4))
                   else Some tleft) with
            | None => None
            | Some tleft =>
                let tleft := if 4 <? cnt then UINT32_MAX else tleft in
                Some (PRTE_SUCCESS, tleft)
            end end end
        end
  end.

End SchizoSlurm.

(** * Vocabulary of the statements *)

Module Spec.
Import CInt CStr Pmix Debugger Attach.

(** The sum of the lengths of the chunks. *)
Definition total_size (chunks : list (list byte)) : Z :=
  fold_right (fun c n => Mem.size c + n) 0 chunks.

(** The buffer holds [acc] and one terminator, and the recorded length
    is the length of [acc]. *)
Definition aggregated (acc : list byte) (st : state) : Prop :=
  iof_data st = Some (acc ++ [NUL]) /\ iof_size st = Mem.size acc.

(** An allocator that grants every request; fresh storage holds
    [0xff]. *)
Definition plain_heap : Mem.heap :=
  {| Mem.alloc_ok := fun _ => true; Mem.garbage := fun _ => xff |}.

(** The first entry of a comma-delimited list: what precedes the first
    comma, the whole string when there is none. *)
Fixpoint first_entry (s : list byte) : list byte :=
  match s with
  | [] => []
  | b :: t => if Byte.eqb b comma then [] else b :: first_entry t
  end.

(** A library that answers the namespace query with [query] and the
    spawn with [spawn], hands [deliveries] to the tool while it waits,
    and succeeds in everything else. *)
Definition library (query : pmix_status_t * list pmix_info_t)
  (spawn : pmix_status_t * list byte) (deliveries : list delivery) : world :=
  {| w_heap := plain_heap;
     w_tool_init := PMIX_SUCCESS;
     w_default_registration := Some (PMIX_SUCCESS, 1);
     w_argv_append := PMIX_SUCCESS;
     w_query := query;
     w_spawn := spawn;
     w_iof_registration := Some (PMIX_SUCCESS, 2);
     w_watch_registration := Some (PMIX_SUCCESS, 3);
     w_deliveries := deliveries;
     w_iof_deregister := PMIX_SUCCESS |}.

(** The same with a query answered by [answer] and a daemon spawned in
    namespace ["debug.1"]. *)
Definition world_of (answer : list pmix_info_t) (deliveries : list delivery)
  : world :=
  library (PMIX_SUCCESS, answer) (PMIX_SUCCESS, lit "debug.1") deliveries.

Definition app_1 : list pmix_info_t :=
  [load_string PMIX_QUERY_NAMESPACES (lit "app.1")].

(** A termination event for the process [who], with the back-reference
    to the record and the exit code [code]. *)
Definition terminated (who : pmix_proc_t) (code : Z) : delivery :=
  Termination [ load_pointer PMIX_EVENT_RETURN_OBJECT (Some attach_myrel);
                load_int32 PMIX_EXIT_CODE code;
                load_proc PMIX_EVENT_AFFECTED_PROC who ] true.

Definition daemon_1 : pmix_proc_t := PMIX_PROC_LOAD (lit "debug.1") 0.
Definition stranger : pmix_proc_t := PMIX_PROC_LOAD (lit "other.7") 0.

Definition command_line : list (list byte) := [lit "attach"; lit "launch.1"].

(** The namespace the resolver leaves in [application_namespace] when
    the query answers the string [response]; [None] when it fails. *)
Definition resolve (response : list byte) : option (list byte) :=
  match query_application_namespace
          (world_of [load_string PMIX_QUERY_NAMESPACES response] [])
          (lit "launch.1") initial_state with
  | (Ret 0, st) => Some (c_str (application_namespace st))
  | _ => None
  end.

Definition is_query (e : event) : bool :=
  match e with Call (PMIx_Query_info _ _) => true | _ => false end.

Definition is_wakeup (e : event) : bool :=
  match e with Wakeup _ => true | _ => false end.

Definition count (f : event -> bool) (tr : list event) : nat :=
  length (filter f tr).

(** The last attribute of [info] whose key is [k]. *)
Definition attribute (k : list byte) (info : list pmix_info_t)
  : option pmix_info_t :=
  find (fun i => key_is i k) (rev info).

(** The back-reference an event carries: the pointer of its
    return-object attribute, null when it has none. *)
Definition return_object (info : list pmix_info_t) : pointer :=
  match attribute PMIX_EVENT_RETURN_OBJECT info with
  | Some i => data_ptr (value i)
  | None => None
  end.

(** The exit code an event supplies, if any. *)
Definition supplied_exit_code (info : list pmix_info_t) : option Z :=
  option_map (fun i => data_integer (value i)) (attribute PMIX_EXIT_CODE info).

(** The process an event says is affected, if any. *)
Definition affected_proc (info : list pmix_info_t) : option pmix_proc_t :=
  match attribute PMIX_EVENT_AFFECTED_PROC info with
  | Some i => data_proc (value i)
  | None => None
  end.

(** A computation that only ever appends to the trace. *)
Definition extends {A} (m : M A) : Prop :=
  forall st r st', m st = (r, st') -> exists evs, trace st' = trace st ++ evs.

(** The registration of the termination watch, as the tool passes it. *)
Definition watch_call (dspace : list byte) : event :=
  Call (PMIx_Register_event_handler [PMIX_ERR_JOB_TERMINATED]
          (watch_qualifiers (PMIX_PROC_LOAD dspace PMIX_RANK_WILDCARD))
          release_fn_ptr (Some attach_mylock)).

(** Modelled from the spec: the event dispatch of the PMIx library,
    whose code is not among the sources.  The subscription of the
    Termination Watcher is "scoped to a job terminated event code and
    qualified to fire only for the specific daemon identity (via an
    affected-process qualifier) and carrying a back-reference to a
    Termination Record (via a return-object qualifier)".  An event the
    runtime raises has a code, the process it affects, and attributes of
    its own. *)
Record notification := {
  ev_status : pmix_status_t;
  ev_affected : pmix_proc_t;
  ev_attributes : list pmix_info_t
}.

Fixpoint bytes_eqb (a b : list byte) : bool :=
  match a, b with
  | [], [] => true
  | x :: a', y :: b' => Byte.eqb x y && bytes_eqb a' b'
  | _, _ => false
  end.

(** Modelled from the spec: a process is the one a qualifier names when
    it has the same namespace and, unless the qualifier gives the wildcard,
    the same rank. *)
Definition same_process (watched p : pmix_proc_t) : bool :=
  bytes_eqb (c_str (nspace watched)) (c_str (nspace p))
  && ((rank watched =? PMIX_RANK_WILDCARD) || (rank watched =? rank p)).

(** Modelled from the spec: the handler registered with [codes] and
    [qualifiers] fires for an event of one of these codes that affects the
    process of the affected-process qualifier; it is then handed the
    attributes of the event, the affected process, and the return object
    of the registration.  [None]: the handler is not called. *)
Definition library_dispatch (codes : list pmix_status_t)
  (qualifiers : list pmix_info_t) (ev : notification)
  : option (list pmix_info_t) :=
  let for_code := existsb (Z.eqb (ev_status ev)) codes in
  let for_proc :=
    match affected_proc qualifiers with
    | Some watched => same_process watched (ev_affected ev)
    | None => true
    end in
  if for_code && for_proc then
    Some (ev_attributes ev
          ++ load_proc PMIX_EVENT_AFFECTED_PROC (ev_affected ev)
          :: match attribute PMIX_EVENT_RETURN_OBJECT qualifiers with
             | Some q => [q]
             | None => []
             end)
  else None.

(** The Termination Watcher at work on one event: the registration the
    tool made for the daemon of namespace [dspace] decides, through the
    library, whether [release_fn] is called and with what. *)
Definition termination_watch (dspace : list byte) (ev : notification)
  (cbfunc : bool) : M unit :=
  match watch_call dspace with
  | Call (PMIx_Register_event_handler codes qualifiers release_fn_ptr _) =>
      match library_dispatch codes qualifiers ev with
      | Some info => release_fn info cbfunc
      | None => ret tt
      end
  | _ => ret tt
  end.

(** The daemon, or a process of another job, terminates with [code]. *)
Definition exits (who : pmix_proc_t) (code : Z) : notification :=
  {| ev_status := PMIX_ERR_JOB_TERMINATED;
     ev_affected := who;
     ev_attributes := [load_int32 PMIX_EXIT_CODE code] |}.

Definition is_spawn (e : event) : bool :=
  match e with Call (PMIx_Spawn _ _) => true | _ => false end.

Definition is_iof_pull (e : event) : bool :=
  match e with Call (PMIx_IOF_pull _ _ _) => true | _ => false end.

Definition is_watch (e : event) : bool :=
  match e with
  | Call (PMIx_Register_event_handler _ _ release_fn_ptr _) => true
  | _ => false
  end.

(** The spawn is refused with a status other than [-1]. *)
Definition spawn_refused : world :=
  library (PMIX_SUCCESS, app_1) (-25, []) [].

(** The namespace query is refused; everything else goes well and the
    daemon terminates. *)
Definition query_refused : world :=
  library (-1, []) (PMIX_SUCCESS, lit "debug.1") [terminated daemon_1 0].

(** The seconds a colon-delimited time of at most four fields stands
    for: the last field, plus 60 times the one before (minutes), 3600
    times the one before that (hours), 86400 times the first of four
    (days). *)
Definition seconds (res : list Z) : Z :=
  let r := rev res in
  nth 0 r 0 + 60 * nth 1 r 0 + 3600 * nth 2 r 0 + 86400 * nth 3 r 0.

(** An environment in which the job id is set and the command runs and
    prints a line that splits into [res]. *)
Definition squeue_prints (res : list Z) : SchizoSlurm.environment :=
  {| SchizoSlurm.getenv_SLURM_JOBID := Some (lit "4242");
     SchizoSlurm.prte_asprintf := fun _ => 24;
     SchizoSlurm.popen_ok := true;
     SchizoSlurm.fgets_ok := true;
     SchizoSlurm.fields := res |}.

(** The PMIx calls of a trace, in order. *)
Definition is_call (e : event) : bool :=
  match e with Call _ => true | _ => false end.

Definition calls (tr : list event) : list event := filter is_call tr.

Definition is_notified (e : event) : bool :=
  match e with Notified _ => true | _ => false end.

Definition is_stderr (e : event) : bool :=
  match e with Stderr _ => true | _ => false end.

(** Every run of [m] relates the state it starts from to the state it
    ends in by [R], however it ends. *)
Definition steps {A} (R : state -> state -> Prop) (m : M A) : Prop :=
  forall st r st', m st = (r, st') -> R st st'.

(** What no callback changes: the PMIx calls made so far, the resolved
    namespace, the forwarding flag. *)
Definition quiet (st st' : state) : Prop :=
  calls (trace st') = calls (trace st)
  /\ application_namespace st' = application_namespace st
  /\ iof_registered st' = iof_registered st.

(** What a delivery leaves alone besides: the handler id and every lock
    but the record's. *)
Definition delivery_frame (st st' : state) : Prop :=
  quiet st st'
  /\ iof_handler_id st' = iof_handler_id st
  /\ forall o, o <> attach_myrel -> locks st' o = locks st o.

(** What a chunk leaves alone: everything but the buffer, its length and
    the trace. *)
Definition buffer_frame (st st' : state) : Prop :=
  application_namespace st' = application_namespace st
  /\ iof_registered st' = iof_registered st
  /\ iof_handler_id st' = iof_handler_id st
  /\ locks st' = locks st
  /\ myrel st' = myrel st
  /\ calls (trace st') = calls (trace st).

(** A delivery that can release the waiting thread: a termination event
    whose return object is the record. *)
Definition carries_record (d : delivery) : Prop :=
  match d with
  | Termination info _ => return_object info = Some attach_myrel
  | Chunk _ => False
  end.

(** The calls of a whole run of the tool in which the daemon is spawned
    in [dspace] with the application namespace buffer [ns], and the
    forwarding handler got the reference [ref]. *)
Definition query_call (nspace : list byte) : event :=
  Call (PMIx_Query_info [PMIX_QUERY_NAMESPACES]
          [load_string PMIX_NSPACE nspace;
           load_int32 PMIX_RANK (int_of_Z PMIX_RANK_WILDCARD)]).

Definition spawn_call (ns : list byte) : event :=
  Call (PMIx_Spawn (spawn_directives ns) daemon_app).

Definition pull_call (dspace : list byte) : event :=
  Call (PMIx_IOF_pull (PMIX_PROC_LOAD dspace PMIX_RANK_WILDCARD)
          [load_bool PMIX_IOF_REDIRECT] (Some attach_iof_lock)).

Definition attach_calls (nspace ns dspace : list byte) : list event :=
  [query_call nspace; spawn_call ns; pull_call dspace; watch_call dspace].

(** A chunk of [2 ^ 31] bytes, one more than an [int] counts. *)
Definition huge_chunk : list byte := repeat x61 (Z.to_nat (2 ^ 31)).

(** An allocator that refuses every request. *)
Definition refusing_heap : Mem.heap :=
  {| Mem.alloc_ok := fun _ => false; Mem.garbage := fun _ => xff |}.

(** A state in which the buffer already holds ["hello "]. *)
Definition after_hello : state :=
  snd (stdio_callback plain_heap (lit "hello ") initial_state).

(** A namespace of [n] letters. *)
Definition long_name (n : nat) : list byte := repeat x61 n.

(** Libraries in which one registration-complete callback never comes. *)
Definition no_default_registration : world :=
  {| w_heap := plain_heap; w_tool_init := PMIX_SUCCESS;
     w_default_registration := None; w_argv_append := PMIX_SUCCESS;
     w_query := (PMIX_SUCCESS, app_1);
     w_spawn := (PMIX_SUCCESS, lit "debug.1");
     w_iof_registration := Some (PMIX_SUCCESS, 2);
     w_watch_registration := Some (PMIX_SUCCESS, 3);
     w_deliveries := [terminated daemon_1 0];
     w_iof_deregister := PMIX_SUCCESS |}.

Definition no_iof_registration : world :=
  {| w_heap := plain_heap; w_tool_init := PMIX_SUCCESS;
     w_default_registration := Some (PMIX_SUCCESS, 1);
     w_argv_append := PMIX_SUCCESS;
     w_query := (PMIX_SUCCESS, app_1);
     w_spawn := (PMIX_SUCCESS, lit "debug.1");
     w_iof_registration := None;
     w_watch_registration := Some (PMIX_SUCCESS, 3);
     w_deliveries := [terminated daemon_1 0];
     w_iof_deregister := PMIX_SUCCESS |}.

Definition no_watch_registration : world :=
  {| w_heap := plain_heap; w_tool_init := PMIX_SUCCESS;
     w_default_registration := Some (PMIX_SUCCESS, 1);
     w_argv_append := PMIX_SUCCESS;
     w_query := (PMIX_SUCCESS, app_1);
     w_spawn := (PMIX_SUCCESS, lit "debug.1");
     w_iof_registration := Some (PMIX_SUCCESS, 2);
     w_watch_registration := None;
     w_deliveries := [terminated daemon_1 0];
     w_iof_deregister := PMIX_SUCCESS |}.

(** [PMIx_tool_init] is refused. *)
Definition init_refused : world :=
  {| w_heap := plain_heap; w_tool_init := -31;
     w_default_registration := Some (PMIX_SUCCESS, 1);
     w_argv_append := PMIX_SUCCESS;
     w_query := (PMIX_SUCCESS, app_1);
     w_spawn := (PMIX_SUCCESS, lit "debug.1");
     w_iof_registration := Some (PMIX_SUCCESS, 2);
     w_watch_registration := Some (PMIX_SUCCESS, 3);
     w_deliveries := [terminated daemon_1 0];
     w_iof_deregister := PMIX_SUCCESS |}.

(** The namespace query cannot be built ([PMIX_ARGV_APPEND] fails);
    everything else goes well and the daemon terminates. *)
Definition query_not_built : world :=
  {| w_heap := plain_heap; w_tool_init := PMIX_SUCCESS;
     w_default_registration := Some (PMIX_SUCCESS, 1);
     w_argv_append := -32;
     w_query := (PMIX_SUCCESS, app_1);
     w_spawn := (PMIX_SUCCESS, lit "debug.1");
     w_iof_registration := Some (PMIX_SUCCESS, 2);
     w_watch_registration := Some (PMIX_SUCCESS, 3);
     w_deliveries := [terminated daemon_1 0];
     w_iof_deregister := PMIX_SUCCESS |}.

(** The namespace query as [query_application_namespace] sends it: not
    at all when it could not be built. *)
Definition query_calls (w : world) (nspace : list byte) : list event :=
  if PMIX_SUCCESS =? w_argv_append w then [query_call nspace] else [].

(** A run of the tool in which the daemon writes ["ab\0cd"] and ["ef"]
    and terminates. *)
Definition zero_byte_output : world :=
  world_of app_1 [ Chunk (lit "ab" ++ [NUL] ++ lit "cd"); Chunk (lit "ef");
                   terminated daemon_1 0 ].

(** The state [main] leaves after one complete attach. *)
Definition after_one_attach : state :=
  snd (main (world_of app_1 [terminated daemon_1 0]) command_line
         initial_state).

(** The calls with which [main] starts and ends. *)
Definition init_call : event := Call (PMIx_tool_init [load_bool PMIX_LAUNCHER]).

Definition default_handler_call : event :=
  Call (PMIx_Register_event_handler [] [] notification_fn_ptr (Some main_mylock)).

Definition deregister_call (ref : Z) : event := Call (PMIx_IOF_deregister ref).

Definition finalize_call : event := Call PMIx_tool_finalize.

(** The environment [e] with another line read. *)
Definition with_fields (e : SchizoSlurm.environment) (res : list Z)
  : SchizoSlurm.environment :=
  {| SchizoSlurm.getenv_SLURM_JOBID := SchizoSlurm.getenv_SLURM_JOBID e;
     SchizoSlurm.prte_asprintf := SchizoSlurm.prte_asprintf e;
     SchizoSlurm.popen_ok := SchizoSlurm.popen_ok e;
     SchizoSlurm.fgets_ok := SchizoSlurm.fgets_ok e;
     SchizoSlurm.fields := res |}.

End Spec.

(** * Properties *)

Import CInt CStr Pmix Debugger Attach SchizoSlurm Spec.

(** ** Conversions and blocks *)

Lemma int_of_Z_small (z : Z) : - 2 ^ 31 <= z < 2 ^ 31 -> int_of_Z z = z.
Proof.
  intros H. unfold int_of_Z.
  rewrite Z.mod_small by lia. lia.
Qed.

Lemma size_t_of_Z_small (z : Z) : 0 <= z < 2 ^ 64 -> size_t_of_Z z = z.
Proof. intros H. unfold size_t_of_Z. now rewrite Z.mod_small. Qed.

Lemma size_app (a b : list byte) : Mem.size (a ++ b) = Mem.size a + Mem.size b.
Proof. unfold Mem.size. rewrite length_app. lia. Qed.

Lemma size_nonneg (a : list byte) : 0 <= Mem.size a.
Proof. unfold Mem.size. lia. Qed.

Lemma uninit_length (h : Mem.heap) (from n : nat) :
  length (Mem.uninit h from n) = n.
Proof. unfold Mem.uninit. now rewrite length_map, length_seq. Qed.

(** A copy that starts right after [a] and fits in what follows. *)
Lemma memcpy_at (a rest src : list byte) :
  (length src <= length rest)%nat ->
  Mem.memcpy (a ++ rest) (Mem.size a) src
  = Some (a ++ src ++ skipn (length src) rest).
Proof.
  intros Hfit. unfold Mem.memcpy.
  assert (Hin : (0 <=? Mem.size a) && (Mem.size a + Mem.size src <=? Mem.size (a ++ rest)) = true).
  { apply andb_true_intro. split; apply Z.leb_le.
    - apply size_nonneg.
    - rewrite size_app. unfold Mem.size. lia. }
  rewrite Hin. unfold Mem.size. rewrite Nat2Z.id.
  rewrite firstn_app, Nat.sub_diag, firstn_all. simpl. rewrite app_nil_r.
  rewrite skipn_app, skipn_all2 by lia. simpl.
  replace (length a + length src - length a)%nat with (length src) by lia.
  reflexivity.
Qed.

Lemma store_at (a rest : list byte) (b : byte) :
  (1 <= length rest)%nat ->
  Mem.store (a ++ rest) (Mem.size a) b = Some (a ++ b :: skipn 1 rest).
Proof. intros H. unfold Mem.store. now rewrite memcpy_at. Qed.

(** ** The Stream Aggregator *)

Lemma first_block (h : Mem.heap) (p : list byte) :
  Mem.alloc_ok h (Mem.size p + 1) = true ->
  exists blk b1,
    Mem.malloc h (Mem.size p + 1) = Some blk
    /\ Mem.memcpy blk 0 p = Some b1
    /\ Mem.store b1 (Mem.size p) NUL = Some (p ++ [NUL]).
Proof.
  intros Hok. unfold Mem.malloc. rewrite Hok.
  set (blk := Mem.uninit h 0 (Z.to_nat (Mem.size p + 1))).
  assert (Hlen : length blk = S (length p)).
  { unfold blk. rewrite uninit_length. unfold Mem.size. lia. }
  exists blk, (p ++ skipn (length p) blk). split; [reflexivity|]. split.
  - apply (memcpy_at [] blk p). lia.
  - rewrite store_at.
    + rewrite skipn_all2; [reflexivity|]. rewrite length_skipn. lia.
    + rewrite length_skipn. lia.
Qed.

Lemma next_block (h : Mem.heap) (acc p : list byte) :
  Mem.alloc_ok h (Mem.size acc + Mem.size p + 1) = true ->
  exists blk b1,
    Mem.realloc h (acc ++ [NUL]) (Mem.size acc + Mem.size p + 1) = Some blk
    /\ Mem.memcpy blk (Mem.size acc) p = Some b1
    /\ Mem.store b1 (Mem.size acc + Mem.size p) NUL
       = Some ((acc ++ p) ++ [NUL]).
Proof.
  intros Hok. unfold Mem.realloc. rewrite Hok.
  set (n := Z.to_nat (Mem.size acc + Mem.size p + 1)).
  assert (Hn : n = (length acc + length p + 1)%nat)
    by (unfold n, Mem.size; lia).
  rewrite firstn_all2 by (rewrite length_app; simpl; lia).
  set (junk := Mem.uninit h (length (acc ++ [NUL])) (n - length (acc ++ [NUL]))).
  assert (Hjunk : length junk = length p).
  { unfold junk. rewrite uninit_length, length_app. simpl. lia. }
  set (rest := [NUL] ++ junk).
  assert (Hrest : length rest = S (length p)).
  { unfold rest. rewrite length_app, Hjunk. reflexivity. }
  exists ((acc ++ [NUL]) ++ junk), (acc ++ p ++ skipn (length p) rest).
  split; [reflexivity|]. split.
  - rewrite <- app_assoc. apply memcpy_at. fold rest. lia.
  - rewrite app_assoc, <- size_app. rewrite store_at.
    + rewrite skipn_all2; [reflexivity|]. rewrite length_skipn. lia.
    + rewrite length_skipn. lia.
Qed.

Lemma stdio_callback_first (h : Mem.heap) (p : list byte) (st : state) :
  iof_data st = None ->
  Mem.alloc_ok h (Mem.size p + 1) = true ->
  Mem.size p + 1 <= INT_MAX ->
  exists st', stdio_callback h p st = (Ret tt, st') /\ aggregated p st'.
Proof.
  intros Hnull Hok Hfit.
  destruct (first_block h p Hok) as (blk & b1 & Hm & Hc & Hs).
  pose proof (size_nonneg p) as Hp. unfold INT_MAX in Hfit.
  unfold stdio_callback, bind, get, modify, defined, ret. simpl.
  rewrite Hnull. simpl.
  rewrite (int_of_Z_small (Mem.size p)) by lia.
  rewrite (int_of_Z_small (Mem.size p + 1)) by lia.
  rewrite size_t_of_Z_small by lia.
  rewrite Hm. simpl. rewrite Hc. rewrite Hs.
  eexists. split; [reflexivity|]. split; reflexivity.
Qed.

Lemma stdio_callback_next (h : Mem.heap) (acc p : list byte) (st : state) :
  aggregated acc st ->
  Mem.alloc_ok h (Mem.size acc + Mem.size p + 1) = true ->
  Mem.size acc + Mem.size p <= INT_MAX ->
  exists st', stdio_callback h p st = (Ret tt, st')
              /\ aggregated (acc ++ p) st'.
Proof.
  intros [Hdata Hsize] Hok Hfit.
  destruct (next_block h acc p Hok) as (blk & b1 & Hm & Hc & Hs).
  pose proof (size_nonneg p) as Hp. pose proof (size_nonneg acc) as Ha.
  unfold INT_MAX in Hfit.
  unfold stdio_callback, bind, get, modify, defined, ret. simpl.
  rewrite Hdata, Hsize. simpl.
  rewrite (size_t_of_Z_small (Mem.size acc)) by lia.
  rewrite (size_t_of_Z_small (Mem.size acc + Mem.size p + 1)) by lia.
  rewrite Hm. simpl. rewrite Hc.
  rewrite (size_t_of_Z_small (Mem.size acc + Mem.size p)) by lia.
  rewrite (int_of_Z_small (Mem.size acc + Mem.size p)) by lia.
  rewrite Hs.
  eexists. split; [reflexivity|]. split; simpl.
  - reflexivity.
  - now rewrite size_app.
Qed.

Lemma total_size_concat (chunks : list (list byte)) :
  total_size chunks = Mem.size (concat chunks).
Proof.
  induction chunks as [|c cs IH]; simpl; [reflexivity|].
  now rewrite size_app, IH.
Qed.

Lemma stdio_callback_rest (h : Mem.heap) (chunks : list (list byte)) :
  forall (acc : list byte) (st : state),
    aggregated acc st ->
    (forall n, 0 < n <= Mem.size acc + total_size chunks + 1 ->
               Mem.alloc_ok h n = true) ->
    Mem.size acc + total_size chunks <= INT_MAX ->
    exists st', for_each chunks (stdio_callback h) st = (Ret tt, st')
                /\ aggregated (acc ++ concat chunks) st'.
Proof.
  induction chunks as [|c cs IH]; intros acc st Hagg Hok Hfit.
  - exists st. simpl. rewrite app_nil_r. split; [reflexivity | assumption].
  - simpl in Hok, Hfit.
    pose proof (size_nonneg c) as Hc. pose proof (size_nonneg acc) as Ha.
    assert (Hcs : 0 <= total_size cs)
      by (rewrite total_size_concat; apply size_nonneg).
    destruct (stdio_callback_next h acc c st Hagg) as (st1 & Hrun & Hagg1).
    { apply Hok. lia. }
    { lia. }
    destruct (IH (acc ++ c) st1 Hagg1) as (st2 & Hrun2 & Hagg2).
    { intros n Hn. apply Hok. rewrite size_app in Hn. lia. }
    { rewrite size_app. lia. }
    exists st2. split.
    + simpl. unfold bind at 1. rewrite Hrun. exact Hrun2.
    + simpl. now rewrite app_assoc.
Qed.

(** C3 (as amended).  Chunks delivered in order to [stdio_callback],
    starting with no buffer, are all taken, provided the allocator grants
    the requests and the lengths fit an [int].  Once a chunk has been
    delivered the buffer is the concatenation of the chunks followed by
    exactly one terminator, and the recorded length is the sum of the
    chunk lengths; before any chunk nothing is changed, the buffer is
    still null. *)
Theorem stdio_callback_accumulates
  (h : Mem.heap) (chunks : list (list byte)) (st : state) :
  iof_data st = None ->
  (forall n, 0 < n <= total_size chunks + 1 -> Mem.alloc_ok h n = true) ->
  Mem.size (hd [] chunks) < INT_MAX ->
  total_size chunks <= INT_MAX ->
  exists st',
    for_each chunks (stdio_callback h) st = (Ret tt, st')
    /\ match chunks with
       | [] => st' = st
       | _ :: _ =>
           iof_data st' = Some (concat chunks ++ [NUL])
           /\ iof_size st' = total_size chunks
       end.
Proof.
  destruct chunks as [|c cs]; intros Hnull Hok Hc Hfit.
  { exists st. split; reflexivity. }
  simpl in Hok, Hfit, Hc.
  pose proof (size_nonneg c) as Hc0.
  assert (Hcs : 0 <= total_size cs)
    by (rewrite total_size_concat; apply size_nonneg).
  destruct (stdio_callback_first h c st Hnull) as (st1 & Hrun1 & Hagg1).
  { apply Hok. lia. }
  { lia. }
  destruct (stdio_callback_rest h cs c st1 Hagg1) as (st2 & Hrun2 & Hd & Hs).
  { intros n Hn. apply Hok. lia. }
  { lia. }
  exists st2. split; [|split].
  - simpl. unfold bind at 1. rewrite Hrun1. exact Hrun2.
  - exact Hd.
  - rewrite Hs, size_app, <- total_size_concat. reflexivity.
Qed.

(** The end-to-end example of the specification: the chunks ["hello "] and
    ["world"] leave ["hello world"] and its terminator, with length 11. *)
Lemma stdio_callback_accumulates_witness :
  exists st',
    for_each [lit "hello "; lit "world"] (stdio_callback plain_heap)
             initial_state = (Ret tt, st')
    /\ iof_data st' = Some (concat [lit "hello "; lit "world"] ++ [NUL])
    /\ iof_size st' = total_size [lit "hello "; lit "world"].
Proof.
  apply (stdio_callback_accumulates plain_heap [lit "hello "; lit "world"]
           initial_state).
  - reflexivity.
  - intros n _. reflexivity.
  - vm_compute. reflexivity.
  - vm_compute. discriminate.
Defined.

Lemma size_huge_chunk : Mem.size huge_chunk = 2 ^ 31.
Proof.
  unfold Mem.size, huge_chunk. rewrite repeat_length. apply Z2Nat.id. lia.
Qed.

(** The first chunk sets the recorded length to its size converted to
    [int], however the call ends. *)
Lemma stdio_callback_first_length
  (h : Mem.heap) (p : list byte) (st st' : state) (r : result unit) :
  iof_data st = None ->
  stdio_callback h p st = (r, st') ->
  iof_size st' = int_of_Z (Mem.size p).
Proof.
  intros Hnull. unfold stdio_callback, bind, get, modify, defined, emit, halt,
    ret. cbn. rewrite Hnull. cbn.
  destruct (Mem.malloc h _) as [blk|]; cbn.
  - destruct (Mem.memcpy blk 0 p) as [b1|]; cbn.
    + destruct (Mem.store b1 (Mem.size p) NUL) as [b2|]; cbn;
        intros H; injection H as _ <-; reflexivity.
    + intros H. injection H as _ <-. reflexivity.
  - intros H. injection H as _ <-. reflexivity.
Qed.

(** C3 as it is written fails where the amended statement puts its two
    conditions.  When the allocator refuses the request, the chunk
    ["world"] ends the process with [exit(1)] and the buffer is null, not
    the chunk and a terminator.  When a chunk has [2 ^ 31] bytes, the
    recorded length is the [int] that size converts to, [- 2 ^ 31], not the
    sum of the chunk lengths. *)
Lemma stdio_callback_beyond_its_limits :
  (fst (for_each [lit "world"] (stdio_callback refusing_heap) initial_state)
   = Stop (Exit 1)
   /\ iof_data (snd (for_each [lit "world"] (stdio_callback refusing_heap)
                       initial_state)) = None
   /\ iof_data (snd (for_each [lit "world"] (stdio_callback refusing_heap)
                       initial_state))
      <> Some (concat [lit "world"] ++ [NUL]))
  /\ (total_size [huge_chunk] = 2 ^ 31
      /\ iof_size (snd (for_each [huge_chunk] (stdio_callback plain_heap)
                          initial_state)) = - 2 ^ 31
      /\ iof_size (snd (for_each [huge_chunk] (stdio_callback plain_heap)
                          initial_state)) <> total_size [huge_chunk]).
Proof.
  split.
  - vm_compute. repeat split. discriminate.
  - assert (Htotal : total_size [huge_chunk] = 2 ^ 31).
    { unfold total_size. cbn [fold_right]. rewrite size_huge_chunk. lia. }
    assert (Hsize : iof_size (snd (for_each [huge_chunk]
                                     (stdio_callback plain_heap)
                                     initial_state)) = - 2 ^ 31).
    { cbn [for_each]. unfold bind.
      destruct (stdio_callback plain_heap huge_chunk initial_state)
        as [[u|stp] s1] eqn:E; cbn [snd ret];
        rewrite (stdio_callback_first_length plain_heap huge_chunk
                   initial_state s1 _ eq_refl E),
          size_huge_chunk; reflexivity. }
    split; [exact Htotal|]. split; [exact Hsize|].
    rewrite Hsize, Htotal. lia.
Qed.

Example stdio_callback_hello_world :
  let st := snd (for_each [lit "hello "; lit "world"]
                          (stdio_callback plain_heap) initial_state) in
  iof_data st = Some (lit "hello world" ++ [NUL]) /\ iof_size st = 11.
Proof. vm_compute. split; reflexivity. Qed.

(** ** The Namespace Resolver *)

Lemma strchr_comma (s : list byte) :
  match strchr s comma with
  | Some p => p
  | None => strlen s
  end = Mem.size (first_entry (c_str s)).
Proof.
  unfold strlen. induction s as [|b t IH]; [reflexivity|].
  cbn [strchr c_str].
  destruct (Byte.eqb b comma) eqn:Hc.
  - apply Byte.byte_dec_bl in Hc. subst b. reflexivity.
  - destruct (Byte.eqb b NUL) eqn:Hn; [reflexivity|].
    cbn [first_entry]. rewrite Hc.
    unfold Mem.size in *. cbn [length].
    rewrite !Nat2Z.inj_succ, <- IH.
    destruct (strchr t comma); reflexivity.
Qed.

Lemma first_entry_firstn (x : list byte) :
  firstn (length (first_entry x)) x = first_entry x.
Proof.
  induction x as [|b t IH]; simpl; [reflexivity|].
  destruct (Byte.eqb b comma); simpl; [reflexivity|]. now rewrite IH.
Qed.

Lemma first_entry_length (x : list byte) :
  (length (first_entry x) <= length x)%nat.
Proof.
  induction x as [|b t IH]; simpl; [lia|].
  destruct (Byte.eqb b comma); simpl; lia.
Qed.

Lemma c_str_first_entry (s rest : list byte) :
  c_str (first_entry (c_str s) ++ NUL :: rest) = first_entry (c_str s).
Proof.
  induction s as [|b t IH]; simpl; [reflexivity|].
  destruct (Byte.eqb b NUL) eqn:Hn; simpl; [reflexivity|].
  destruct (Byte.eqb b comma); simpl; [reflexivity|].
  now rewrite Hn, IH.
Qed.

(** The copy of the first entry into the namespace buffer, and its
    termination. *)
Lemma copy_first_entry (buf s : list byte) :
  Mem.size buf = PMIX_MAX_NSLEN + 1 ->
  Mem.size (first_entry (c_str s)) <= PMIX_MAX_NSLEN ->
  exists b1 b2,
    strncpy buf s (Mem.size (first_entry (c_str s))) = Some b1
    /\ Mem.store b1 (Mem.size (first_entry (c_str s))) NUL = Some b2
    /\ c_str b2 = first_entry (c_str s)
    /\ Mem.size b2 = Mem.size buf.
Proof.
  set (fe := first_entry (c_str s)). intros Hbuf Hfit.
  assert (Hlen : (length fe <= length (c_str s))%nat)
    by apply first_entry_length.
  assert (Hroom : (length fe < length buf)%nat)
    by (unfold Mem.size, PMIX_MAX_NSLEN in *; lia).
  exists (fe ++ skipn (length fe) buf),
         (fe ++ NUL :: skipn 1 (skipn (length fe) buf)).
  split; [|split; [|split]].
  - unfold strncpy, Mem.size. rewrite Nat2Z.id.
    replace (length fe - length (c_str s))%nat with 0%nat by lia.
    simpl repeat. rewrite app_nil_r.
    unfold fe at 1. rewrite first_entry_firstn. fold fe.
    apply (memcpy_at [] buf fe). lia.
  - apply store_at. rewrite length_skipn. lia.
  - apply c_str_first_entry.
  - unfold Mem.size. rewrite length_app. cbn [length].
    rewrite !length_skipn. lia.
Qed.

(** C4 (as amended).  When the query answers one string value whose
    first entry is no longer than [PMIX_MAX_NSLEN], the resolver leaves in
    [application_namespace] that first entry, terminated: the part before
    the first comma, the whole string without a comma.
    ["app123,dbg456"] and ["app123"] both give ["app123"]. *)
Theorem query_application_namespace_first_entry :
  (forall (w : world) (nspace : list byte) (d : pmix_info_t) (st : state),
      w_argv_append w = PMIX_SUCCESS ->
      w_query w = (PMIX_SUCCESS, [d]) ->
      type (value d) = PMIX_STRING ->
      Mem.size (application_namespace st) = PMIX_MAX_NSLEN + 1 ->
      Mem.size (first_entry (c_str (data_string (value d)))) <= PMIX_MAX_NSLEN ->
      exists st',
        query_application_namespace w nspace st = (Ret 0, st')
        /\ c_str (application_namespace st')
           = first_entry (c_str (data_string (value d)))
        /\ Mem.size (application_namespace st') = PMIX_MAX_NSLEN + 1)
  /\ resolve (lit "app123,dbg456") = Some (lit "app123")
  /\ resolve (lit "app123") = Some (lit "app123").
Proof.
  split; [|split; vm_compute; reflexivity].
  intros w nspace d st Hargv Hq Ht Hbuf Hfit.
  destruct (copy_first_entry (application_namespace st)
              (data_string (value d)) Hbuf Hfit)
    as (b1 & b2 & Hcopy & Hstore & Hstr & Hsize).
  pose proof (strchr_comma (data_string (value d))) as Hlen.
  pose proof (size_nonneg (first_entry (c_str (data_string (value d))))) as H0.
  unfold PMIX_MAX_NSLEN in Hfit.
  unfold query_application_namespace. rewrite Hargv, Hq, Ht. simpl.
  unfold bind, get, emit, modify, defined, ret. simpl.
  assert (Hint : match strchr (data_string (value d)) comma with
                 | Some p => int_of_Z p
                 | None => int_of_Z (strlen (data_string (value d)))
                 end = Mem.size (first_entry (c_str (data_string (value d))))).
  { destruct (strchr (data_string (value d)) comma);
      rewrite int_of_Z_small; lia. }
  rewrite Hint. rewrite size_t_of_Z_small by lia.
  rewrite Hcopy. rewrite Hstore.
  eexists. split; [reflexivity|]. simpl. split; [exact Hstr|].
  now rewrite Hsize.
Qed.

Lemma query_application_namespace_first_entry_witness :
  exists st',
    query_application_namespace
      (world_of [load_string PMIX_QUERY_NAMESPACES (lit "app.1,debug.1")] [])
      (lit "launch.1") initial_state = (Ret 0, st')
    /\ c_str (application_namespace st') = first_entry (c_str (lit "app.1,debug.1"))
    /\ Mem.size (application_namespace st') = PMIX_MAX_NSLEN + 1.
Proof.
  apply (proj1 query_application_namespace_first_entry
           (world_of [load_string PMIX_QUERY_NAMESPACES (lit "app.1,debug.1")] [])
           (lit "launch.1")
           (load_string PMIX_QUERY_NAMESPACES (lit "app.1,debug.1"))
           initial_state).
  - reflexivity.
  - reflexivity.
  - reflexivity.
  - reflexivity.
  - vm_compute. discriminate.
Defined.

(** C4 as it is written fails for a response whose first entry is longer
    than a namespace can be: with 256 letters the terminator is written
    past the end of [application_namespace], and no namespace is
    produced. *)
Lemma query_application_namespace_long_entry :
  first_entry (c_str (long_name 256)) = long_name 256
  /\ Mem.size (long_name 256) = PMIX_MAX_NSLEN + 1
  /\ fst (query_application_namespace
            (world_of [load_string PMIX_QUERY_NAMESPACES (long_name 256)] [])
            (lit "launch.1") initial_state) = Stop Undefined
  /\ resolve (long_name 256) = None.
Proof. vm_compute. repeat split. Qed.

Lemma pmix_data_type_eqb_eq (a b : pmix_data_type) :
  pmix_data_type_eqb a b = true <-> a = b.
Proof. destruct a, b; simpl; split; congruence. Qed.

(** C5.  When the query cannot be built or submitted, when it does not
    answer exactly one record, or when the record is not a string, the
    resolver returns the failure status [-1] after one line on [stderr];
    [application_namespace] is left as it was and the query is submitted at
    most once. *)
Theorem query_application_namespace_failure
  (w : world) (nspace : list byte) (st : state) :
  w_argv_append w <> PMIX_SUCCESS
  \/ fst (w_query w) <> PMIX_SUCCESS
  \/ length (snd (w_query w)) <> 1%nat
  \/ (exists d, snd (w_query w) = [d] /\ type (value d) <> PMIX_STRING) ->
  exists st' pre m,
    query_application_namespace w nspace st = (Ret (-1), st')
    /\ application_namespace st' = application_namespace st
    /\ trace st' = trace st ++ pre ++ [Stderr m]
    /\ (count is_query pre <= 1)%nat.
Proof.
  intros H. unfold query_application_namespace.
  destruct (w_query w) as [rc data]. simpl in H.
  destruct (Z.eqb_spec PMIX_SUCCESS (w_argv_append w)) as [Ha|Ha]; cbn [negb].
  2:{ exists (with_trace (trace st ++ [Stderr Error_creating_query]) st),
        [], Error_creating_query.
      repeat split. unfold count. simpl. lia. }
  destruct (Z.eqb_spec PMIX_SUCCESS rc) as [Hr|Hr]; cbn [negb].
  2:{ eexists _, [_], _. unfold bind, emit, modify, ret. simpl.
      split; [reflexivity|]. simpl. rewrite <- app_assoc.
      repeat split. unfold count. simpl. lia. }
  assert (Hwrong :
    exists st' pre m,
      ((emit (Call (PMIx_Query_info [PMIX_QUERY_NAMESPACES]
                      [load_string PMIX_NSPACE nspace;
                       load_int32 PMIX_RANK (int_of_Z PMIX_RANK_WILDCARD)])) ;;
        emit (Stderr Wrong_format) ;; ret (-1)) st) = (Ret (-1), st')
      /\ application_namespace st' = application_namespace st
      /\ trace st' = trace st ++ pre ++ [Stderr m]
      /\ (count is_query pre <= 1)%nat).
  { eexists _, [_], _. unfold bind, emit, modify, ret. simpl.
    split; [reflexivity|]. simpl. rewrite <- app_assoc.
    repeat split. unfold count. simpl. lia. }
  destruct data as [|d [|d' data]]; try exact Hwrong.
  destruct (pmix_data_type_eqb PMIX_STRING (type (value d))) eqn:Ht;
    cbn [negb]; [|exact Hwrong].
  apply pmix_data_type_eqb_eq in Ht.
  exfalso. destruct H as [H|[H|[H|(d0 & Hd & H)]]].
  - congruence.
  - congruence.
  - apply H. reflexivity.
  - injection Hd as Hd. subst d0. congruence.
Qed.

Lemma query_application_namespace_failure_witness :
  exists st' pre m,
    query_application_namespace (world_of [] []) (lit "launch.1") initial_state
    = (Ret (-1), st')
    /\ application_namespace st' = application_namespace initial_state
    /\ trace st' = trace initial_state ++ pre ++ [Stderr m]
    /\ (count is_query pre <= 1)%nat.
Proof.
  apply (query_application_namespace_failure (world_of [] []) (lit "launch.1")
           initial_state).
  right. right. left. simpl. discriminate.
Defined.

(** ** Attribute keys *)

Lemma uchar_zero (b : byte) : uchar b = 0 -> b = NUL.
Proof. destruct b; simpl; intros H; try reflexivity; discriminate H. Qed.

Lemma uchar_inj (a b : byte) : uchar a = uchar b -> a = b.
Proof.
  unfold uchar. intros H. apply N2Z.inj in H.
  pose proof (Byte.of_to_N a) as Ha. rewrite H, Byte.of_to_N in Ha.
  congruence.
Qed.

(** Two strings that [strncmp] finds equal have the same first [n]
    bytes. *)
Lemma strncmp_zero (n : nat) :
  forall s1 s2, strncmp s1 s2 n = 0 ->
                firstn n (c_str s1) = firstn n (c_str s2).
Proof.
  induction n as [|n IH]; intros s1 s2 H; [reflexivity|].
  destruct s1 as [|a t1], s2 as [|b t2]; cbn [strncmp c_str] in *.
  - reflexivity.
  - assert (b = NUL) by (apply uchar_zero; lia). subst b. reflexivity.
  - apply uchar_zero in H. subst a. reflexivity.
  - destruct (Byte.eqb a b) eqn:Hab.
    + apply Byte.byte_dec_bl in Hab. subst b.
      destruct (Byte.eqb a NUL); [reflexivity|].
      cbn [firstn]. f_equal. now apply IH.
    + assert (a = b) by (apply uchar_inj; lia). subst b.
      rewrite (Byte.byte_dec_lb eq_refl) in Hab. discriminate.
Qed.

Lemma key_is_exclusive (i : pmix_info_t) (k1 k2 : list byte) :
  firstn PMIX_MAX_KEYLEN (c_str k1) <> firstn PMIX_MAX_KEYLEN (c_str k2) ->
  key_is i k1 = true -> key_is i k2 = false.
Proof.
  intros Hne H1. destruct (key_is i k2) eqn:H2; [|reflexivity].
  exfalso. apply Hne. unfold key_is in *.
  apply Z.eqb_eq, strncmp_zero in H1. apply Z.eqb_eq, strncmp_zero in H2.
  congruence.
Qed.

Lemma return_object_not_exit_code (i : pmix_info_t) :
  key_is i PMIX_EVENT_RETURN_OBJECT = true -> key_is i PMIX_EXIT_CODE = false.
Proof. apply key_is_exclusive. vm_compute. discriminate. Qed.

Lemma return_object_not_affected (i : pmix_info_t) :
  key_is i PMIX_EVENT_RETURN_OBJECT = true ->
  key_is i PMIX_EVENT_AFFECTED_PROC = false.
Proof. apply key_is_exclusive. vm_compute. discriminate. Qed.

Lemma exit_code_not_affected (i : pmix_info_t) :
  key_is i PMIX_EXIT_CODE = true -> key_is i PMIX_EVENT_AFFECTED_PROC = false.
Proof. apply key_is_exclusive. vm_compute. discriminate. Qed.

Lemma attribute_snoc (k : list byte) (info : list pmix_info_t) (i : pmix_info_t) :
  attribute k (info ++ [i])
  = if key_is i k then Some i else attribute k info.
Proof. unfold attribute. rewrite rev_app_distr. reflexivity. Qed.

(** What the scan of [release_fn] leaves in its locals. *)
Lemma release_scan_attributes (info : list pmix_info_t) :
  lock (release_scan info) = return_object info
  /\ found (release_scan info)
     = match supplied_exit_code info with Some _ => true | None => false end
  /\ (forall code, supplied_exit_code info = Some code ->
                   rl_exit_code (release_scan info) = code)
  /\ affected (release_scan info) = affected_proc info.
Proof.
  unfold release_scan, return_object, supplied_exit_code, affected_proc.
  induction info as [|i info IH] using rev_ind.
  - repeat split. intros code H. discriminate H.
  - destruct IH as (Hl & Hf & Hc & Ha).
    rewrite fold_left_app. cbn [fold_left]. rewrite !attribute_snoc.
    unfold release_scan_step.
    destruct (key_is i PMIX_EVENT_RETURN_OBJECT) eqn:K1.
    { rewrite (return_object_not_exit_code i K1),
        (return_object_not_affected i K1). cbn.
      repeat split; assumption. }
    destruct (key_is i PMIX_EXIT_CODE) eqn:K2.
    { rewrite (exit_code_not_affected i K2). cbn.
      repeat split; try assumption. intros code H. congruence. }
    destruct (key_is i PMIX_EVENT_AFFECTED_PROC) eqn:K3; cbn;
      repeat split; assumption.
Qed.

(** ** The Termination Watcher *)

Lemma count_app (f : event -> bool) (a b : list event) :
  count f (a ++ b) = (count f a + count f b)%nat.
Proof. unfold count. now rewrite filter_app, length_app. Qed.

(** [release_fn] on an event that carries the back-reference to the
    record. *)
Lemma release_fn_with_record (info : list pmix_info_t) (cbfunc : bool)
  (st : state) :
  return_object info = Some attach_myrel ->
  exists st',
    release_fn info cbfunc st = (Ret tt, st')
    /\ myrel st' = match supplied_exit_code info with
                   | Some code => {| rel_nspace := rel_nspace (myrel st);
                                     exit_code := code;
                                     exit_code_given := true |}
                   | None => myrel st
                   end
    /\ signaled (locks st' attach_myrel) = true
    /\ (forall o, o <> attach_myrel -> locks st' o = locks st o)
    /\ trace st' = trace st ++ Wakeup attach_myrel
                   :: (if cbfunc then [Notified PMIX_EVENT_ACTION_COMPLETE]
                       else [])
                   ++ [Wakeup attach_myrel].
Proof.
  intros Hobj.
  destruct (release_scan_attributes info) as (Hl & Hf & Hc & _).
  unfold release_fn. rewrite Hl, Hobj, Hf.
  destruct (supplied_exit_code info) as [code|] eqn:Hcode.
  - rewrite (Hc code eq_refl).
    destruct cbfunc; eexists; (split; [reflexivity|]); cbn;
      rewrite <- !app_assoc; repeat split;
      intros o Ho; destruct o; try reflexivity; contradiction.
  - destruct cbfunc; eexists; (split; [reflexivity|]); cbn;
      rewrite <- !app_assoc; repeat split;
      intros o Ho; destruct o; try reflexivity; contradiction.
Qed.

(** C9.  A termination event without the back-reference is logged and
    acknowledged with [PMIX_SUCCESS] when the pipeline gave a continuation;
    nothing else changes, so no lock is signaled.  With the back-reference
    to the record, a supplied exit code is stored and its presence flag
    set, the record's lock is signaled and completion is acknowledged with
    [PMIX_EVENT_ACTION_COMPLETE]. *)
Theorem release_fn_back_reference
  (info : list pmix_info_t) (cbfunc : bool) (st : state) :
  (return_object info = None ->
   release_fn info cbfunc st
   = (Ret tt,
      with_trace (trace st ++ Stderr Lock_not_returned
                    :: (if cbfunc then [Notified PMIX_SUCCESS] else [])) st))
  /\ (return_object info = Some attach_myrel ->
      exists st',
        release_fn info cbfunc st = (Ret tt, st')
        /\ myrel st' = match supplied_exit_code info with
                       | Some code => {| rel_nspace := rel_nspace (myrel st);
                                         exit_code := code;
                                         exit_code_given := true |}
                       | None => myrel st
                       end
        /\ signaled (locks st' attach_myrel) = true
        /\ trace st' = trace st ++ Wakeup attach_myrel
                       :: (if cbfunc
                           then [Notified PMIX_EVENT_ACTION_COMPLETE]
                           else [])
                       ++ [Wakeup attach_myrel]).
Proof.
  split.
  - intros Hobj.
    destruct (release_scan_attributes info) as (Hl & _).
    unfold release_fn. rewrite Hl, Hobj.
    destruct cbfunc; unfold bind, when, emit, modify, ret; cbn;
      rewrite <- ?app_assoc; reflexivity.
  - intros Hobj.
    destruct (release_fn_with_record info cbfunc st Hobj)
      as (st' & Hrun & Hrel & Hsig & _ & Htr).
    exists st'. repeat split; assumption.
Qed.

(** ** The trace only grows *)

Lemma bind_ret_inv {A B} (m : M A) (k : A -> M B) (st st' : state) (b : B) :
  bind m k st = (Ret b, st') ->
  exists a st1, m st = (Ret a, st1) /\ k a st1 = (Ret b, st').
Proof.
  unfold bind. destruct (m st) as [[a|s] st1]; intros H.
  - exists a, st1. split; [reflexivity | exact H].
  - discriminate H.
Qed.

Lemma extends_ret {A} (a : A) : extends (ret a).
Proof. intros st r st' H. injection H as _ <-. exists []. now rewrite app_nil_r. Qed.

Lemma extends_get : extends get.
Proof. intros st r st' H. injection H as _ <-. exists []. now rewrite app_nil_r. Qed.

Lemma extends_halt {A} (s : stop) : extends (@halt A s).
Proof. intros st r st' H. injection H as _ <-. exists []. now rewrite app_nil_r. Qed.

Lemma extends_emit (e : event) : extends (emit e).
Proof. intros st r st' H. injection H as _ <-. now exists [e]. Qed.

Lemma extends_modify (f : state -> state) :
  (forall st, trace (f st) = trace st) -> extends (modify f).
Proof.
  intros Hf st r st' H. injection H as _ <-. exists [].
  now rewrite app_nil_r.
Qed.

Lemma extends_bind {A B} (m : M A) (k : A -> M B) :
  extends m -> (forall a, extends (k a)) -> extends (bind m k).
Proof.
  intros Hm Hk st r st'. unfold bind.
  destruct (m st) as [[a|s] st1] eqn:E; intros H.
  - destruct (Hm _ _ _ E) as [e1 H1]. destruct (Hk a _ _ _ H) as [e2 H2].
    exists (e1 ++ e2). now rewrite H2, H1, app_assoc.
  - injection H as _ <-. exact (Hm _ _ _ E).
Qed.

Lemma extends_for_each {A} (l : list A) (body : A -> M unit) :
  (forall a, extends (body a)) -> extends (for_each l body).
Proof.
  intros Hb. induction l as [|a l IH]; simpl.
  - apply extends_ret.
  - apply extends_bind; [apply Hb | intros _; exact IH].
Qed.

Create HintDb trace.
#[local] Hint Resolve extends_ret extends_get extends_halt extends_emit : trace.

(** Walks through a computation built from the primitives above. *)
Ltac extends_step :=
  match goal with
  | |- extends (bind _ _) => apply extends_bind; [|intros ?]
  | |- extends (modify _) => apply extends_modify; intros ?; reflexivity
  | |- extends (when ?b _) => destruct b; unfold when
  | |- extends (defined ?o) => destruct o; unfold defined
  | |- extends (match ?x with _ => _ end) => destruct x
  | |- extends _ => solve [auto with trace]
  end.

Ltac extends_all := repeat extends_step.

Lemma extends_wakeup_thread (o : obj) : extends (wakeup_thread o).
Proof. unfold wakeup_thread, update_lock. extends_all. Qed.

Lemma extends_wait_thread (o : obj) : extends (wait_thread o).
Proof. unfold wait_thread. extends_all. Qed.

Lemma extends_construct_lock (o : obj) : extends (construct_lock o).
Proof. unfold construct_lock, update_lock. extends_all. Qed.

#[local] Hint Resolve extends_wakeup_thread extends_wait_thread
  extends_construct_lock : trace.

Lemma extends_stdio_callback (h : Mem.heap) (payload : list byte) :
  extends (stdio_callback h payload).
Proof. unfold stdio_callback. extends_all. Qed.

Lemma extends_release_fn (info : list pmix_info_t) (cbfunc : bool) :
  extends (release_fn info cbfunc).
Proof. unfold release_fn, as_myrel. extends_all. Qed.

Lemma extends_evhandler_reg_callbk (status ref : Z) (cbdata : pointer) :
  extends (evhandler_reg_callbk status ref cbdata).
Proof. unfold evhandler_reg_callbk, update_lock. extends_all. Qed.

Lemma extends_iof_reg_callbk (status ref : Z) (cbdata : pointer) :
  extends (iof_reg_callbk status ref cbdata).
Proof. unfold iof_reg_callbk, update_lock. extends_all. Qed.

Lemma extends_deliver (h : Mem.heap) (d : delivery) : extends (deliver h d).
Proof.
  destruct d; simpl;
    [apply extends_stdio_callback | apply extends_release_fn].
Qed.

Lemma extends_fire (r : option (Z * Z)) (callbk : Z -> Z -> M unit) :
  (forall status ref, extends (callbk status ref)) -> extends (fire r callbk).
Proof.
  intros H. destruct r as [[status ref]|]; simpl; [apply H | apply extends_ret].
Qed.

Lemma extends_query_application_namespace (w : world) (nspace : list byte) :
  extends (query_application_namespace w nspace).
Proof. unfold query_application_namespace. extends_all. Qed.

(** ** The Attach Orchestrator *)

(** The run of the specification: ["launch.1"] resolves to ["app.1"], the
    daemon is spawned in ["debug.1"], two chunks arrive, the daemon
    terminates with exit code 0. *)
Example main_end_to_end :
  let w := world_of app_1 [Chunk (lit "hello "); Chunk (lit "world");
                           terminated daemon_1 0] in
  fst (run_main w command_line) = Some 0
  /\ c_str (application_namespace (snd (run_main w command_line))) = lit "app.1"
  /\ myrel (snd (run_main w command_line))
     = {| rel_nspace := lit "debug.1"; exit_code := 0;
          exit_code_given := true |}
  /\ last (trace (snd (run_main w command_line))) (Call PMIx_tool_finalize)
     = Forwarded_stdio (lit "hello world").
Proof. vm_compute. repeat split. Qed.

Ltac extends_callbacks :=
  repeat first
    [ apply extends_fire; intros ? ?
    | apply extends_evhandler_reg_callbk
    | apply extends_iof_reg_callbk
    | apply extends_for_each; intros ?
    | apply extends_deliver
    | extends_step ].

Ltac peel H :=
  let a := fresh "a" in
  let s := fresh "s" in
  let Hm := fresh "Hm" in
  apply bind_ret_inv in H; destruct H as (a & s & Hm & H).

Lemma extends_attach_to_running_job (w : world) (nspace : list byte) :
  extends (attach_to_running_job w nspace).
Proof.
  unfold attach_to_running_job.
  apply extends_bind; [apply extends_query_application_namespace | intros _].
  apply extends_bind; [apply extends_get | intros st].
  apply extends_bind; [apply extends_emit | intros _].
  destruct (w_spawn w) as [rc dspace].
  destruct (negb (PMIX_SUCCESS =? rc)); [extends_all|].
  extends_callbacks.
Qed.

(** The resolver touches no lock and calls nothing but the query. *)
Lemma query_application_namespace_quiet
  (w : world) (nspace : list byte) (st st1 : state) (r : result Z) :
  query_application_namespace w nspace st = (r, st1) ->
  exists evs,
    trace st1 = trace st ++ evs
    /\ locks st1 = locks st
    /\ count is_spawn evs = 0%nat
    /\ count is_iof_pull evs = 0%nat
    /\ count is_watch evs = 0%nat.
Proof.
  unfold query_application_namespace. intros H.
  destruct (negb (PMIX_SUCCESS =? w_argv_append w)).
  { injection H as _ <-. exists [Stderr Error_creating_query].
    repeat split. }
  destruct (w_query w) as [rc data].
  assert (Hwrong : forall m,
    (emit (Call (PMIx_Query_info [PMIX_QUERY_NAMESPACES]
                   [load_string PMIX_NSPACE nspace;
                    load_int32 PMIX_RANK (int_of_Z PMIX_RANK_WILDCARD)])) ;;
     emit (Stderr m) ;; ret (-1)) st = (r, st1) ->
    exists evs,
      trace st1 = trace st ++ evs /\ locks st1 = locks st
      /\ count is_spawn evs = 0%nat /\ count is_iof_pull evs = 0%nat
      /\ count is_watch evs = 0%nat).
  { intros m Hm. injection Hm as _ <-. eexists [_; _]. cbn.
    rewrite <- app_assoc. repeat split. }
  destruct (negb (PMIX_SUCCESS =? rc)); [exact (Hwrong _ H)|].
  destruct data as [|d [|d' data]]; try exact (Hwrong _ H).
  destruct (negb (pmix_data_type_eqb PMIX_STRING (type (value d))));
    [exact (Hwrong _ H)|].
  clear Hwrong. unfold bind, emit, modify, get, defined, halt, ret in H.
  cbn beta iota in H.
  match type of H with
  | context [strncpy ?a ?b ?c] => destruct (strncpy a b c) as [b1|]
  end.
  - match type of H with
    | context [Mem.store ?a ?b ?c] => destruct (Mem.store a b c) as [b2|]
    end; injection H as _ <-; eexists [_]; cbn; repeat split.
  - injection H as _ <-. eexists [_]. cbn. repeat split.
Qed.

(** C6 (as amended).  When the spawn call does not succeed, the tool
    writes the spawn status to [stderr] and [attach_to_running_job]
    returns [-1] at once: the spawn call and that line are all it adds to
    the trace, so the forwarding of the daemon's output is not registered,
    the termination watch is not registered, and no lock is touched. *)
Theorem attach_to_running_job_spawn_failure
  (w : world) (nspace : list byte) (st st1 : state) (r : Z) :
  query_application_namespace w nspace st = (Ret r, st1) ->
  fst (w_spawn w) <> PMIX_SUCCESS ->
  exists st',
    attach_to_running_job w nspace st = (Ret (-1), st')
    /\ trace st'
       = trace st1
         ++ [ Call (PMIx_Spawn (spawn_directives (application_namespace st1))
                      daemon_app);
              Stderr (Error_spawning (fst (w_spawn w))) ]
    /\ count is_iof_pull (trace st') = count is_iof_pull (trace st)
    /\ count is_watch (trace st') = count is_watch (trace st)
    /\ locks st' = locks st.
Proof.
  intros Hq Hrc.
  destruct (query_application_namespace_quiet _ _ _ _ _ Hq)
    as (evs & Htr & Hlk & _ & Hpull & Hwatch).
  unfold attach_to_running_job. unfold bind at 1. rewrite Hq.
  destruct (w_spawn w) as [rc dspace]. simpl in Hrc.
  destruct (Z.eqb_spec PMIX_SUCCESS rc) as [E|E]; [congruence|].
  eexists. split; [reflexivity|]. cbn -[count].
  rewrite <- app_assoc. split; [reflexivity|].
  rewrite Htr, !count_app, Hpull, Hwatch. cbn.
  repeat split; try lia. exact Hlk.
Qed.

Lemma attach_to_running_job_spawn_failure_witness :
  exists st',
    attach_to_running_job spawn_refused (lit "launch.1") initial_state
    = (Ret (-1), st')
    /\ trace st'
       = trace (snd (query_application_namespace spawn_refused (lit "launch.1")
                       initial_state))
         ++ [ Call (PMIx_Spawn (spawn_directives
                                  (lit "app.1" ++ repeat NUL 251)) daemon_app);
              Stderr (Error_spawning (-25)) ]
    /\ count is_iof_pull (trace st') = count is_iof_pull (trace initial_state)
    /\ count is_watch (trace st') = count is_watch (trace initial_state)
    /\ locks st' = locks initial_state.
Proof.
  apply (attach_to_running_job_spawn_failure spawn_refused (lit "launch.1")
           initial_state
           (snd (query_application_namespace spawn_refused (lit "launch.1")
                   initial_state)) 0).
  - vm_compute. reflexivity.
  - vm_compute. discriminate.
Defined.

(** C6 as it is written fails: the spawn is refused with status [-25] and
    [attach_to_running_job] returns [-1], not that status. *)
Lemma attach_to_running_job_hides_spawn_status :
  fst (w_spawn spawn_refused) = -25
  /\ fst (attach_to_running_job spawn_refused (lit "launch.1") initial_state)
     = Ret (-1)
  /\ fst (attach_to_running_job spawn_refused (lit "launch.1") initial_state)
     <> Ret (fst (w_spawn spawn_refused)).
Proof. vm_compute. repeat split. discriminate. Qed.

(** C1, at an input where it fails.  The namespace query is refused and
    the resolver returns [-1]; [attach_to_running_job] drops that status,
    spawns the daemon, registers the forwarding and the watch, waits, and
    returns success; the process ends with status 0. *)
Theorem attach_to_running_job_ignores_resolution_failure :
  fst (query_application_namespace query_refused (lit "launch.1") initial_state)
  = Ret (-1)
  /\ (let st' := snd (attach_to_running_job query_refused (lit "launch.1")
                        initial_state) in
      count is_spawn (trace st') = 1%nat
      /\ count is_iof_pull (trace st') = 1%nat
      /\ count is_watch (trace st') = 1%nat)
  /\ fst (attach_to_running_job query_refused (lit "launch.1") initial_state)
     = Ret 0
  /\ fst (run_main query_refused command_line) = Some 0.
Proof. vm_compute. repeat split. Qed.

(** Whenever [main] returns, it returns what [PMIx_IOF_deregister]
    returned. *)
Lemma main_returns_deregister_status
  (w : world) (argv : list (list byte)) (st st' : state) (rc : Z) :
  main w argv st = (Ret rc, st') -> rc = w_iof_deregister w.
Proof.
  unfold main. intros H.
  destruct (Z.of_nat (length argv) <? 2).
  { peel H. discriminate H. }
  peel H. destruct (negb (PMIX_SUCCESS =? w_tool_init w)).
  { peel H. discriminate H. }
  do 11 peel H. injection H as H _. now symmetry.
Qed.

(** C2, at an input where it fails.  The spawn is refused, the attach
    sequence returns [-1] and the tool says so on [stderr]; the process
    nevertheless ends with the status of [PMIx_IOF_deregister], 0. *)
Theorem main_exit_status_after_failed_attach :
  In (Stderr (Failed_to_attach (lit "launch.1") (-1)))
     (trace (snd (run_main spawn_refused command_line)))
  /\ fst (run_main spawn_refused command_line) = Some 0
  /\ fst (run_main spawn_refused [lit "attach"]) = Some 1
  /\ trace (snd (run_main spawn_refused [lit "attach"]))
     = [Stderr (Usage (lit "attach"))].
Proof.
  vm_compute. repeat split. right. right. right. right. right. right. left.
  reflexivity.
Qed.

(** ** The Termination Watcher, within the attach sequence *)

Lemma release_fn_back_reference_witness :
  release_fn [load_int32 PMIX_EXIT_CODE 3] true initial_state
  = (Ret tt,
     with_trace (trace initial_state
                 ++ [Stderr Lock_not_returned; Notified PMIX_SUCCESS])
                initial_state)
  /\ exists st',
      release_fn [ load_pointer PMIX_EVENT_RETURN_OBJECT (Some attach_myrel);
                   load_int32 PMIX_EXIT_CODE 3 ] true initial_state
      = (Ret tt, st')
      /\ myrel st' = {| rel_nspace := []; exit_code := 3;
                        exit_code_given := true |}
      /\ signaled (locks st' attach_myrel) = true
      /\ trace st' = [ Wakeup attach_myrel;
                       Notified PMIX_EVENT_ACTION_COMPLETE;
                       Wakeup attach_myrel ].
Proof.
  split.
  - apply (proj1 (release_fn_back_reference
                    [load_int32 PMIX_EXIT_CODE 3] true initial_state)).
    vm_compute. reflexivity.
  - apply (proj2 (release_fn_back_reference
                    [ load_pointer PMIX_EVENT_RETURN_OBJECT (Some attach_myrel);
                      load_int32 PMIX_EXIT_CODE 3 ] true initial_state)).
    vm_compute. reflexivity.
Defined.

Lemma bytes_eqb_eq (a b : list byte) : bytes_eqb a b = true <-> a = b.
Proof.
  revert b. induction a as [|x a IH]; intros [|y b]; simpl; split;
    try congruence; try discriminate.
  - intros H. apply andb_prop in H. destruct H as [H1 H2].
    apply Byte.byte_dec_bl in H1. apply IH in H2. congruence.
  - intros H. injection H as -> ->. apply andb_true_intro. split.
    + now apply Byte.byte_dec_lb.
    + now apply IH.
Qed.

(** What the library reads in the qualifiers of the watch. *)
Lemma watch_qualifiers_read (p : pmix_proc_t) :
  affected_proc (watch_qualifiers p) = Some p
  /\ attribute PMIX_EVENT_RETURN_OBJECT (watch_qualifiers p)
     = Some (load_pointer PMIX_EVENT_RETURN_OBJECT (Some attach_myrel)).
Proof. split; reflexivity. Qed.

(** The return object of the registration comes last in what the handler
    is given, so it is the one the handler finds. *)
Lemma dispatched_return_object (attrs : list pmix_info_t) (p : pmix_proc_t) :
  return_object
    (attrs ++ [ load_proc PMIX_EVENT_AFFECTED_PROC p;
                load_pointer PMIX_EVENT_RETURN_OBJECT (Some attach_myrel) ])
  = Some attach_myrel.
Proof. unfold return_object, attribute. rewrite rev_app_distr. reflexivity. Qed.

(** C7.  The Termination Watcher is the registration the tool makes, the
    dispatch of the library, and [release_fn].  For every event the runtime
    raises: when the process it affects is not of the namespace of the
    watched daemon, or its code is not the job-terminated code, the handler
    is not called and nothing changes, so the record's lock is not
    signaled; when the event is the termination of a process of the
    daemon's namespace, the handler finds the record and signals its lock
    (by two wake-ups), leaving the other locks alone. *)
Theorem termination_watch_only_for_the_daemon
  (dspace : list byte) (ev : notification) (cbfunc : bool)
  (st st' : state) (r : result unit) :
  termination_watch dspace ev cbfunc st = (r, st') ->
  (c_str (nspace (ev_affected ev)) <> c_str dspace
   \/ ev_status ev <> PMIX_ERR_JOB_TERMINATED ->
   r = Ret tt /\ st' = st)
  /\ (c_str (nspace (ev_affected ev)) = c_str dspace ->
      ev_status ev = PMIX_ERR_JOB_TERMINATED ->
      r = Ret tt
      /\ signaled (locks st' attach_myrel) = true
      /\ (forall o, o <> attach_myrel -> locks st' o = locks st o)
      /\ count is_wakeup (trace st') = (count is_wakeup (trace st) + 2)%nat).
Proof.
  intros H. unfold termination_watch, watch_call, library_dispatch in H.
  destruct (watch_qualifiers_read (PMIX_PROC_LOAD dspace PMIX_RANK_WILDCARD))
    as [Ha Ho].
  rewrite Ha, Ho in H. unfold same_process in H.
  cbn [nspace rank PMIX_PROC_LOAD existsb] in H.
  rewrite Z.eqb_refl, orb_false_r, orb_true_l, andb_true_r in H.
  destruct (Z.eqb_spec (ev_status ev) PMIX_ERR_JOB_TERMINATED) as [Hs|Hs];
    destruct (bytes_eqb (c_str dspace) (c_str (nspace (ev_affected ev))))
      eqn:Hb; cbn [andb] in H.
  - apply bytes_eqb_eq in Hb. split.
    + intros [Hn|Hn]; [congruence | contradiction].
    + intros _ _.
      destruct (release_fn_with_record _ cbfunc st
                  (dispatched_return_object (ev_attributes ev) (ev_affected ev)))
        as (s1 & Hrun & _ & Hsig & Hothers & Htr).
      cbn [app] in H. rewrite Hrun in H. injection H as <- <-.
      repeat split; try assumption.
      rewrite Htr, count_app. destruct cbfunc; cbn; lia.
  - injection H as <- <-. split; [now split|].
    intros Hn _. symmetry in Hn. apply bytes_eqb_eq in Hn. congruence.
  - injection H as <- <-. split; [now split | contradiction].
  - injection H as <- <-. split; [now split | contradiction].
Qed.

(** The daemon runs in ["debug.1"]: the termination of a process of
    ["other.7"] changes nothing, the termination of the daemon signals the
    record's lock. *)
Lemma termination_watch_only_for_the_daemon_witness :
  (fst (termination_watch (lit "debug.1") (exits stranger 9) true initial_state)
   = Ret tt
   /\ snd (termination_watch (lit "debug.1") (exits stranger 9) true
             initial_state) = initial_state)
  /\ (fst (termination_watch (lit "debug.1") (exits daemon_1 0) true
             initial_state) = Ret tt
      /\ signaled (locks (snd (termination_watch (lit "debug.1")
                                 (exits daemon_1 0) true initial_state))
                     attach_myrel) = true
      /\ (forall o, o <> attach_myrel ->
                    locks (snd (termination_watch (lit "debug.1")
                                  (exits daemon_1 0) true initial_state)) o
                    = locks initial_state o)
      /\ count is_wakeup
           (trace (snd (termination_watch (lit "debug.1") (exits daemon_1 0)
                          true initial_state)))
         = (count is_wakeup (trace initial_state) + 2)%nat).
Proof.
  split.
  - apply (proj1 (termination_watch_only_for_the_daemon
                    (lit "debug.1") (exits stranger 9) true initial_state
                    _ _ (surjective_pairing _))).
    left. vm_compute. discriminate.
  - apply (proj2 (termination_watch_only_for_the_daemon
                    (lit "debug.1") (exits daemon_1 0) true initial_state
                    _ _ (surjective_pairing _))).
    + vm_compute. reflexivity.
    + reflexivity.
Defined.

(** ** The I/O Forwarding Registrar *)

Lemma iof_reg_callbk_registered
  (status ref : Z) (cbdata : pointer) (st : state) :
  iof_registered st <> 0 ->
  exists st',
    iof_reg_callbk status ref cbdata st = (Ret tt, st')
    /\ locks st' = locks st
    /\ iof_registered st' = iof_registered st
    /\ iof_handler_id st' = ref
    /\ count is_wakeup (trace st') = count is_wakeup (trace st).
Proof.
  intros Hreg. apply Z.eqb_neq in Hreg.
  unfold iof_reg_callbk, bind, when, emit, modify, get, ret.
  destruct (status =? PMIX_SUCCESS); destruct cbdata as [lock|]; cbn -[count];
    rewrite ?Hreg; cbn -[count]; eexists; (split; [reflexivity|]);
    cbn -[count]; rewrite ?count_app; repeat split; cbn; lia.
Qed.

Lemma iof_reg_callbk_first (status ref : Z) (lock : obj) (st : state) :
  iof_registered st = 0 ->
  exists st',
    iof_reg_callbk status ref (Some lock) st = (Ret tt, st')
    /\ iof_registered st' = 1
    /\ locks st' lock = {| signaled := true; Debugger.status := status |}
    /\ iof_handler_id st' = ref
    /\ count is_wakeup (trace st') = S (count is_wakeup (trace st)).
Proof.
  intros Hreg.
  unfold iof_reg_callbk, wakeup_thread, update_lock, bind, when, emit, modify,
    get, ret.
  destruct (status =? PMIX_SUCCESS); cbn -[count]; rewrite Hreg; cbn -[count];
    eexists; (split; [reflexivity|]); cbn -[count]; rewrite ?count_app;
    destruct lock; repeat split; cbn; lia.
Qed.

(** C8.  Once the already-registered flag is set, a call of
    [iof_reg_callbk] touches no lock and wakes nobody.  In any series of
    calls that starts with the flag clear, the first call alone sets the
    flag, stores its status in the lock and wakes the waiter: after the
    series the lock holds the first status and exactly one wake-up was
    added. *)
Theorem iof_reg_callbk_signals_once :
  (forall (status ref : Z) (cbdata : pointer) (st : state),
      iof_registered st <> 0 ->
      exists st',
        iof_reg_callbk status ref cbdata st = (Ret tt, st')
        /\ locks st' = locks st
        /\ iof_registered st' = iof_registered st
        /\ count is_wakeup (trace st') = count is_wakeup (trace st))
  /\ (forall (later : list (Z * Z)) (status ref : Z) (lock : obj) (st : state),
         iof_registered st = 0 ->
         exists st',
           for_each ((status, ref) :: later)
             (fun f => iof_reg_callbk (fst f) (snd f) (Some lock)) st
           = (Ret tt, st')
           /\ iof_registered st' = 1
           /\ locks st' lock
              = {| signaled := true; Debugger.status := status |}
           /\ count is_wakeup (trace st') = S (count is_wakeup (trace st))).
Proof.
  split.
  - intros status ref cbdata st Hreg.
    destruct (iof_reg_callbk_registered status ref cbdata st Hreg)
      as (st' & Hrun & Hl & Hr & _ & Hc).
    exists st'. repeat split; assumption.
  - intros later status ref lock st Hreg.
    destruct (iof_reg_callbk_first status ref lock st Hreg)
      as (st1 & Hrun & Hflag & Hlock & _ & Hcount).
    cbn [for_each]. unfold bind at 1. cbn [fst snd]. rewrite Hrun.
    rewrite <- Hcount, <- Hlock. clear Hrun Hcount Hlock Hreg.
    revert st1 Hflag. induction later as [|[s r] later IH]; intros st1 Hflag.
    + exists st1. repeat split; assumption.
    + destruct (iof_reg_callbk_registered s r (Some lock) st1)
        as (st2 & Hrun & Hl & Hr & _ & Hc); [lia|].
      destruct (IH st2) as (st3 & Hrun3 & Hf3 & Hl3 & Hc3); [congruence|].
      exists st3. cbn [for_each]. unfold bind at 1. cbn [fst snd].
      rewrite Hrun. repeat split; try assumption; congruence.
Qed.

Lemma iof_reg_callbk_signals_once_witness :
  (exists st',
      iof_reg_callbk 0 2 (Some attach_iof_lock)
        (with_iof_registered 1 initial_state) = (Ret tt, st')
      /\ locks st' = locks (with_iof_registered 1 initial_state)
      /\ iof_registered st' = iof_registered (with_iof_registered 1 initial_state)
      /\ count is_wakeup (trace st')
         = count is_wakeup (trace (with_iof_registered 1 initial_state)))
  /\ exists st',
      for_each [(0, 2); (0, 2)]
        (fun f => iof_reg_callbk (fst f) (snd f) (Some attach_iof_lock))
        initial_state
      = (Ret tt, st')
      /\ iof_registered st' = 1
      /\ locks st' attach_iof_lock
         = {| signaled := true; Debugger.status := 0 |}
      /\ count is_wakeup (trace st')
         = S (count is_wakeup (trace initial_state)).
Proof.
  split.
  - apply (proj1 iof_reg_callbk_signals_once 0 2 (Some attach_iof_lock)
             (with_iof_registered 1 initial_state)).
    simpl. discriminate.
  - apply (proj2 iof_reg_callbk_signals_once [(0, 2)] 0 2 attach_iof_lock
             initial_state).
    reflexivity.
Defined.

(** ** The SLURM remaining-time helper *)

Lemma uint32_of_long (y x : Z) :
  uint32_of_Z (y + long_of_Z x) = uint32_of_Z (y + x).
Proof.
  unfold uint32_of_Z, long_of_Z.
  rewrite (Z.mod_eq (x + 2 ^ 63) (2 ^ 64)) by lia.
  replace (y + (x + 2 ^ 63 - 2 ^ 64 * ((x + 2 ^ 63) / 2 ^ 64) - 2 ^ 63))
    with (y + x + (- (2 ^ 32 * ((x + 2 ^ 63) / 2 ^ 64))) * 2 ^ 32) by lia.
  apply Z_mod_plus_full.
Qed.

Lemma add_field_uint32 (a k v : Z) :
  add_field (uint32_of_Z a) k v = uint32_of_Z (a + k * v).
Proof.
  unfold add_field.
  rewrite (uint32_of_long 0 (uint32_of_Z a + long_of_Z (k * v)) : 
             uint32_of_Z (long_of_Z _) = uint32_of_Z (0 + _)).
  rewrite Z.add_0_l, uint32_of_long.
  unfold uint32_of_Z. now rewrite Zplus_mod_idemp_l.
Qed.

Lemma uint32_of_Z_small (z : Z) : 0 <= z <= UINT32_MAX -> uint32_of_Z z = z.
Proof.
  unfold UINT32_MAX, uint32_of_Z. intros H. apply Z.mod_small. lia.
Qed.

Lemma field_in_range (res : list Z) (i : Z) :
  0 <= i < Z.of_nat (length res) -> exists v, field res i = Some v.
Proof.
  intros H. unfold field.
  replace ((0 <=? i) && (i <? Z.of_nat (length res))) with true
    by (symmetry; apply andb_true_intro; split;
        [apply Z.leb_le | apply Z.ltb_lt]; lia).
  destruct (nth_error res (Z.to_nat i)) as [v|] eqn:E; [now exists v|].
  apply nth_error_None in E. lia.
Qed.

(** The run once the line is read. *)
Lemma get_remaining_time_reads (e : environment) (timeleft : Z)
  (jobid : list byte) :
  getenv_SLURM_JOBID e = Some jobid ->
  0 <= prte_asprintf e jobid ->
  popen_ok e = true ->
  fgets_ok e = true ->
  ((1 <= length (fields e) <= 4)%nat ->
   get_remaining_time e timeleft
   = Some (PRTE_SUCCESS, uint32_of_Z (seconds (fields e))))
  /\ ((4 < length (fields e))%nat ->
      Z.of_nat (length (fields e)) < 2 ^ 64 ->
      get_remaining_time e timeleft = Some (PRTE_SUCCESS, UINT32_MAX)).
Proof.
  intros Hjob Hfmt Hopen Hread. unfold get_remaining_time.
  rewrite Hjob, Hopen, Hread.
  replace (0 >? prte_asprintf e jobid) with false
    by (symmetry; rewrite Z.gtb_ltb; apply Z.ltb_ge; exact Hfmt).
  cbn [negb]. split.
  - intros Hcnt.
    remember uint32_of_Z as u eqn:Hu. remember add_field as af eqn:Haf.
    destruct (fields e) as [|a [|b [|c [|d [|x l]]]]];
      cbn [length] in Hcnt; try lia; cbv -[seconds]; subst u af;
      rewrite ?add_field_uint32; unfold seconds; cbn [rev app nth];
      do 3 f_equal; lia.
  - intros Hcnt Hsize.
    set (n := Z.of_nat (length (fields e))) in *.
    assert (Hn : 4 < n) by (unfold n; lia).
    rewrite (size_t_of_Z_small n) by lia.
    destruct (field_in_range (fields e) (n - 1)) as [v1 ->]; [lia|].
    destruct (field_in_range (fields e) (n - 2)) as [v2 ->]; [lia|].
    destruct (field_in_range (fields e) (n - 3)) as [v3 ->]; [lia|].
    destruct (field_in_range (fields e) (n - 4)) as [v4 ->]; [lia|].
    replace (1 <? n) with true by (symmetry; apply Z.ltb_lt; lia).
    replace (2 <? n) with true by (symmetry; apply Z.ltb_lt; lia).
    replace (3 <? n) with true by (symmetry; apply Z.ltb_lt; lia).
    replace (4 <? n) with true by (symmetry; apply Z.ltb_lt; lia).
    reflexivity.
Qed.

(** C10.  [get_remaining_time] first stores [UINT32_MAX], so every return
    with an error status (no [SLURM_JOBID], no room for the command, pipe
    not opened, nothing read) leaves [UINT32_MAX].  When the line read
    splits into one to four fields, it reports, as a [uint32_t], the last
    field plus 60 times the minutes, 3600 times the hours and 86400 times
    the days: exactly that number of seconds when it fits.  With more than
    four fields it reports [UINT32_MAX]. *)
Theorem get_remaining_time_reports (e : environment) (timeleft : Z) :
  (forall s v, get_remaining_time e timeleft = Some (s, v) ->
               s <> PRTE_SUCCESS -> v = UINT32_MAX)
  /\ (getenv_SLURM_JOBID e = None ->
      get_remaining_time e timeleft
      = Some (PRTE_ERR_TAKE_NEXT_OPTION, UINT32_MAX))
  /\ (forall jobid,
         getenv_SLURM_JOBID e = Some jobid ->
         (prte_asprintf e jobid < 0 ->
          get_remaining_time e timeleft
          = Some (PRTE_ERR_OUT_OF_RESOURCE, UINT32_MAX))
         /\ (0 <= prte_asprintf e jobid -> popen_ok e = false ->
             get_remaining_time e timeleft
             = Some (PRTE_ERR_FILE_OPEN_FAILURE, UINT32_MAX))
         /\ (0 <= prte_asprintf e jobid -> popen_ok e = true ->
             fgets_ok e = false ->
             get_remaining_time e timeleft
             = Some (PRTE_ERR_FILE_READ_FAILURE, UINT32_MAX))
         /\ (0 <= prte_asprintf e jobid -> popen_ok e = true ->
             fgets_ok e = true ->
             ((1 <= length (fields e) <= 4)%nat ->
              get_remaining_time e timeleft
              = Some (PRTE_SUCCESS, uint32_of_Z (seconds (fields e)))
              /\ (0 <= seconds (fields e) <= UINT32_MAX ->
                  get_remaining_time e timeleft
                  = Some (PRTE_SUCCESS, seconds (fields e))))
             /\ ((4 < length (fields e))%nat ->
                 Z.of_nat (length (fields e)) < 2 ^ 64 ->
                 get_remaining_time e timeleft
                 = Some (PRTE_SUCCESS, UINT32_MAX)))).
Proof.
  split; [|split].
  - intros s v H Hs. unfold get_remaining_time in H.
    destruct (getenv_SLURM_JOBID e) as [jobid|]; [|congruence].
    destruct (0 >? prte_asprintf e jobid); [congruence|].
    destruct (negb (popen_ok e)); [congruence|].
    destruct (negb (fgets_ok e)); [congruence|].
    repeat match type of H with
           | match ?x with Some _ => _ | None => _ end = _ =>
               destruct x; [|discriminate H]
           end.
    congruence.
  - intros Hjob. unfold get_remaining_time. now rewrite Hjob.
  - intros jobid Hjob. split; [|split; [|split]].
    + intros Hfmt. unfold get_remaining_time. rewrite Hjob.
      replace (0 >? prte_asprintf e jobid) with true
        by (symmetry; rewrite Z.gtb_ltb; apply Z.ltb_lt; exact Hfmt).
      reflexivity.
    + intros Hfmt Hopen. unfold get_remaining_time. rewrite Hjob, Hopen.
      replace (0 >? prte_asprintf e jobid) with false
        by (symmetry; rewrite Z.gtb_ltb; apply Z.ltb_ge; exact Hfmt).
      reflexivity.
    + intros Hfmt Hopen Hread. unfold get_remaining_time.
      rewrite Hjob, Hopen, Hread.
      replace (0 >? prte_asprintf e jobid) with false
        by (symmetry; rewrite Z.gtb_ltb; apply Z.ltb_ge; exact Hfmt).
      reflexivity.
    + intros Hfmt Hopen Hread.
      destruct (get_remaining_time_reads e timeleft jobid Hjob Hfmt Hopen Hread)
        as [Hfew Hmany].
      split; [|exact Hmany].
      intros Hcnt. split; [exact (Hfew Hcnt)|].
      intros Hfit. rewrite (Hfew Hcnt), uint32_of_Z_small by exact Hfit.
      reflexivity.
Qed.

(** The four fields [1:2:3:4] stand for 93784 seconds. *)
Lemma get_remaining_time_reports_witness :
  get_remaining_time (squeue_prints [1; 2; 3; 4]) 0
  = Some (PRTE_SUCCESS, 93784).
Proof.
  refine (proj2 (proj1 (proj2 (proj2 (proj2
            (proj2 (proj2 (get_remaining_time_reports
                             (squeue_prints [1; 2; 3; 4]) 0))
               (lit "4242") eq_refl))) _ eq_refl eq_refl) _) _).
  - vm_compute. discriminate.
  - simpl. lia.
  - vm_compute. split; discriminate.
Defined.

Example get_remaining_time_examples :
  get_remaining_time (squeue_prints [59]) 7 = Some (PRTE_SUCCESS, 59)
  /\ get_remaining_time (squeue_prints [10; 0]) 7 = Some (PRTE_SUCCESS, 600)
  /\ get_remaining_time (squeue_prints [2; 0; 0]) 7 = Some (PRTE_SUCCESS, 7200)
  /\ get_remaining_time (squeue_prints [1; 0; 0; 0; 0]) 7
     = Some (PRTE_SUCCESS, UINT32_MAX)
  /\ get_remaining_time (squeue_prints []) 7 = None.
Proof. vm_compute. repeat split. Qed.

(** * Further properties of the code *)

(** ** Reasoning on what a run leaves alone *)

Section Steps.

Variable R : state -> state -> Prop.
Hypothesis R_refl : forall st, R st st.
Hypothesis R_trans : forall a b c, R a b -> R b c -> R a c.

Lemma steps_ret {A} (a : A) : steps R (ret a).
Proof. intros st r st' H. injection H as _ <-. apply R_refl. Qed.

Lemma steps_get : steps R get.
Proof. intros st r st' H. injection H as _ <-. apply R_refl. Qed.

Lemma steps_halt {A} (s : stop) : steps R (@halt A s).
Proof. intros st r st' H. injection H as _ <-. apply R_refl. Qed.

Lemma steps_modify (f : state -> state) :
  (forall st, R st (f st)) -> steps R (modify f).
Proof. intros Hf st r st' H. injection H as _ <-. apply Hf. Qed.

Lemma steps_bind {A B} (m : M A) (k : A -> M B) :
  steps R m -> (forall a, steps R (k a)) -> steps R (bind m k).
Proof.
  intros Hm Hk st r st'. unfold bind.
  destruct (m st) as [[a|s] st1] eqn:E; intros H.
  - eapply R_trans; [exact (Hm _ _ _ E) | exact (Hk a _ _ _ H)].
  - injection H as _ <-. exact (Hm _ _ _ E).
Qed.

Lemma steps_for_each {A} (l : list A) (body : A -> M unit) :
  (forall a, In a l -> steps R (body a)) -> steps R (for_each l body).
Proof.
  induction l as [|a l IH]; intros Hb; simpl.
  - apply steps_ret.
  - apply steps_bind; [apply Hb; now left | intros _].
    apply IH. intros b Hin. apply Hb. now right.
Qed.

End Steps.

(** Walks through a computation; what is left are the writes. *)
Ltac steps_walk refl trans :=
  repeat match goal with
         | |- steps _ (bind _ _) => apply (steps_bind _ trans); [|intros ?]
         | |- steps _ (ret _) => apply (steps_ret _ refl)
         | |- steps _ get => apply (steps_get _ refl)
         | |- steps _ (halt _) => apply (steps_halt _ refl)
         | |- steps _ (when ?b _) => destruct b; unfold when
         | |- steps _ (defined ?o) => destruct o; unfold defined
         | |- steps _ (match ?x with _ => _ end) => destruct x
         end.

Lemma bind_ret_l {A B} (a : A) (k : A -> M B) : bind (ret a) k = k a.
Proof. reflexivity. Qed.

Lemma bind_halt_l {A B} (s : stop) (k : A -> M B) : bind (halt s) k = halt s.
Proof. reflexivity. Qed.

Lemma calls_snoc (tr : list event) (e : event) :
  calls (tr ++ [e]) = if is_call e then calls tr ++ [e] else calls tr.
Proof.
  unfold calls. rewrite filter_app. simpl.
  destruct (is_call e); [reflexivity | apply app_nil_r].
Qed.

Lemma buffer_frame_refl (st : state) : buffer_frame st st.
Proof. repeat split. Qed.

Lemma buffer_frame_trans (a b c : state) :
  buffer_frame a b -> buffer_frame b c -> buffer_frame a c.
Proof.
  unfold buffer_frame. intros (A1 & A2 & A3 & A4 & A5 & A6)
    (B1 & B2 & B3 & B4 & B5 & B6).
  repeat split; congruence.
Qed.

Lemma delivery_frame_refl (st : state) : delivery_frame st st.
Proof. repeat split. Qed.

Lemma delivery_frame_trans (a b c : state) :
  delivery_frame a b -> delivery_frame b c -> delivery_frame a c.
Proof.
  unfold delivery_frame, quiet.
  intros ((A1 & A2 & A3) & A4 & A5) ((B1 & B2 & B3) & B4 & B5).
  repeat split; try congruence.
  intros o Ho. rewrite (B5 o Ho). exact (A5 o Ho).
Qed.

Lemma buffer_frame_delivery (st st' : state) :
  buffer_frame st st' -> delivery_frame st st'.
Proof.
  intros (A1 & A2 & A3 & A4 & A5 & A6). repeat split; try assumption.
  intros o _. now rewrite A4.
Qed.

Lemma stdio_callback_buffer_frame (h : Mem.heap) (payload : list byte) :
  steps buffer_frame (stdio_callback h payload).
Proof.
  unfold stdio_callback, emit.
  steps_walk buffer_frame_refl buffer_frame_trans;
    apply steps_modify; intros s; unfold buffer_frame; cbn -[calls];
    rewrite ?calls_snoc; repeat split.
Qed.

Lemma wakeup_record_frame : steps delivery_frame (wakeup_thread attach_myrel).
Proof.
  unfold wakeup_thread, update_lock, emit.
  steps_walk delivery_frame_refl delivery_frame_trans;
    apply steps_modify; intros s; unfold delivery_frame, quiet; cbn -[calls];
    rewrite ?calls_snoc; repeat split;
    intros o Ho; destruct o; try reflexivity; contradiction.
Qed.

Lemma release_fn_delivery_frame (info : list pmix_info_t) (cbfunc : bool) :
  steps delivery_frame (release_fn info cbfunc).
Proof.
  unfold release_fn. cbv zeta.
  destruct (lock (release_scan info)) as [[]|]; cbn [as_myrel];
    rewrite ?bind_ret_l, ?bind_halt_l; unfold emit;
    steps_walk delivery_frame_refl delivery_frame_trans;
    try apply wakeup_record_frame;
    apply steps_modify; intros s; unfold delivery_frame, quiet; cbn -[calls];
    rewrite ?calls_snoc; repeat split; intros o Ho; reflexivity.
Qed.

Lemma deliver_delivery_frame (h : Mem.heap) (d : delivery) :
  steps delivery_frame (deliver h d).
Proof.
  destruct d as [payload|info cbfunc]; simpl.
  - intros st r st' H. apply buffer_frame_delivery.
    exact (stdio_callback_buffer_frame h payload st r st' H).
  - apply release_fn_delivery_frame.
Qed.

(** ** More on the Stream Aggregator *)

(** X1.  When the allocator refuses the request, [stdio_callback] writes
    one line to [stderr] and ends the process with [exit(1)]: on the first
    chunk the buffer is still null and the length already holds the size of
    the chunk; on a later chunk the pointer to the old buffer is lost, since
    the result of [realloc] was stored in [iof_data] before the test. *)
Theorem stdio_callback_allocation_failure
  (h : Mem.heap) (payload : list byte) (st : state) :
  (iof_data st = None ->
   Mem.size payload < INT_MAX ->
   Mem.alloc_ok h (Mem.size payload + 1) = false ->
   stdio_callback h payload st
   = (Stop (Exit 1),
      with_trace (trace st ++ [Stderr Unable_to_allocate])
        (with_iof_data None (with_iof_size (Mem.size payload) st))))
  /\ (forall old,
         iof_data st = Some old ->
         0 <= iof_size st ->
         iof_size st + Mem.size payload + 1 < 2 ^ 64 ->
         Mem.alloc_ok h (iof_size st + Mem.size payload + 1) = false ->
         stdio_callback h payload st
         = (Stop (Exit 1),
            with_trace (trace st ++ [Stderr Unable_to_allocate])
              (with_iof_data None st))).
Proof.
  pose proof (size_nonneg payload) as Hp. split.
  - intros Hnull Hfit Hno. unfold INT_MAX in Hfit.
    unfold stdio_callback, bind, get, modify, emit, halt, ret. cbn.
    rewrite Hnull. cbn.
    rewrite (int_of_Z_small (Mem.size payload)) by lia.
    rewrite (int_of_Z_small (Mem.size payload + 1)) by lia.
    rewrite size_t_of_Z_small by lia.
    unfold Mem.malloc. rewrite Hno. reflexivity.
  - intros old Hold Hsize Hfit Hno.
    unfold stdio_callback, bind, get, modify, emit, halt, ret. cbn.
    rewrite Hold. cbn.
    rewrite (size_t_of_Z_small (iof_size st)) by lia.
    rewrite size_t_of_Z_small by lia.
    unfold Mem.realloc. rewrite Hno. reflexivity.
Qed.

Lemma stdio_callback_allocation_failure_witness :
  fst (stdio_callback refusing_heap (lit "world") initial_state) = Stop (Exit 1)
  /\ fst (stdio_callback refusing_heap (lit "world") after_hello)
     = Stop (Exit 1)
  /\ iof_data (snd (stdio_callback refusing_heap (lit "world") after_hello))
     = None.
Proof.
  pose proof (stdio_callback_allocation_failure refusing_heap (lit "world"))
    as H.
  split; [|split].
  - rewrite (proj1 (H initial_state)); [reflexivity | reflexivity | | reflexivity].
    vm_compute. reflexivity.
  - rewrite (proj2 (H after_hello) (lit "hello " ++ [NUL]));
      [reflexivity | reflexivity | | | reflexivity];
      vm_compute; [discriminate | reflexivity].
  - rewrite (proj2 (H after_hello) (lit "hello " ++ [NUL]));
      [reflexivity | reflexivity | | | reflexivity];
      vm_compute; [discriminate | reflexivity].
Defined.

(** X2.  Whatever the outcome of [stdio_callback], it changes nothing
    but the buffer, its length and the trace: the locks, the record, the
    resolved namespace, the forwarding flag and handler id are as before,
    and it makes no PMIx call. *)
Theorem stdio_callback_touches_only_the_buffer
  (h : Mem.heap) (payload : list byte) (st st' : state) (r : result unit) :
  stdio_callback h payload st = (r, st') ->
  application_namespace st' = application_namespace st
  /\ iof_registered st' = iof_registered st
  /\ iof_handler_id st' = iof_handler_id st
  /\ locks st' = locks st
  /\ myrel st' = myrel st
  /\ calls (trace st') = calls (trace st).
Proof. exact (stdio_callback_buffer_frame h payload st r st'). Qed.

Lemma stdio_callback_touches_only_the_buffer_witness :
  locks (snd (stdio_callback plain_heap (lit "world") after_hello))
  = locks after_hello
  /\ myrel (snd (stdio_callback plain_heap (lit "world") after_hello))
     = myrel after_hello.
Proof.
  destruct (stdio_callback_touches_only_the_buffer plain_heap (lit "world")
              after_hello
              (snd (stdio_callback plain_heap (lit "world") after_hello))
              (fst (stdio_callback plain_heap (lit "world") after_hello)))
    as (_ & _ & _ & Hl & Hr & _).
  - apply surjective_pairing.
  - split; assumption.
Defined.

Lemma c_str_terminated (a rest : list byte) :
  c_str (a ++ NUL :: rest) = c_str a.
Proof.
  induction a as [|b a IH]; simpl; [reflexivity|].
  destruct (Byte.eqb b NUL); [reflexivity | now rewrite IH].
Qed.

Lemma c_str_no_NUL (a : list byte) :
  Forall (fun b => b <> NUL) a -> c_str a = a.
Proof.
  induction 1 as [|b a Hb _ IH]; simpl; [reflexivity|].
  destruct (Byte.eqb b NUL) eqn:E.
  - apply Byte.byte_dec_bl in E. contradiction.
  - now rewrite IH.
Qed.

(** ** More on the callbacks *)

Lemma evhandler_reg_callbk_runs (status ref : Z) (cbdata : pointer) (st : state) :
  exists st',
    evhandler_reg_callbk status ref cbdata st = (Ret tt, st')
    /\ quiet st st'
    /\ iof_handler_id st' = iof_handler_id st
    /\ myrel st' = myrel st
    /\ count is_stderr (trace st')
       = (count is_stderr (trace st)
          + if (status =? PMIX_SUCCESS)%Z then 0 else 1)%nat
    /\ match cbdata with
       | None =>
           locks st' = locks st
           /\ count is_wakeup (trace st') = count is_wakeup (trace st)
       | Some lock =>
           locks st' lock = {| signaled := true; Debugger.status := status |}
           /\ (forall o, o <> lock -> locks st' o = locks st o)
           /\ count is_wakeup (trace st') = S (count is_wakeup (trace st))
       end.
Proof.
  unfold evhandler_reg_callbk, wakeup_thread, update_lock, bind, when, emit,
    modify, get, ret, quiet.
  destruct (status =? PMIX_SUCCESS); destruct cbdata as [lock|];
    cbn -[count calls]; eexists; (split; [reflexivity|]);
    cbn -[count calls]; rewrite ?calls_snoc, ?count_app; cbn -[count calls];
    repeat split; try (cbn; lia);
    try (destruct lock; reflexivity);
    intros o Ho; destruct lock, o; try reflexivity; contradiction.
Qed.

(** X4.  [evhandler_reg_callbk] always returns.  With a lock it stores
    the status in it, whether success or not, and wakes the waiter exactly
    once, leaving the other locks alone; with a null [cbdata] it touches no
    lock and wakes nobody.  A status other than success costs one line on
    [stderr], and only that. *)
Theorem evhandler_reg_callbk_stores_and_wakes
  (status ref : Z) (cbdata : pointer) (st : state) :
  exists st',
    evhandler_reg_callbk status ref cbdata st = (Ret tt, st')
    /\ count is_stderr (trace st')
       = (count is_stderr (trace st)
          + if (status =? PMIX_SUCCESS)%Z then 0 else 1)%nat
    /\ match cbdata with
       | None =>
           locks st' = locks st
           /\ count is_wakeup (trace st') = count is_wakeup (trace st)
       | Some lock =>
           locks st' lock = {| signaled := true; Debugger.status := status |}
           /\ (forall o, o <> lock -> locks st' o = locks st o)
           /\ count is_wakeup (trace st') = S (count is_wakeup (trace st))
       end.
Proof.
  destruct (evhandler_reg_callbk_runs status ref cbdata st)
    as (st' & Hrun & _ & _ & _ & Herr & Hlock).
  exists st'. repeat split; assumption.
Qed.

Lemma release_scan_step_other (l : release_locals) (i : pmix_info_t) :
  key_is i PMIX_EVENT_RETURN_OBJECT = false ->
  key_is i PMIX_EXIT_CODE = false ->
  key_is i PMIX_EVENT_AFFECTED_PROC = false ->
  release_scan_step l i = l.
Proof. intros H1 H2 H3. unfold release_scan_step. now rewrite H1, H2, H3. Qed.

(** X5.  The scan of [release_fn] keeps, for each of the three keys it
    knows, the value of the last attribute with that key, and the exit code
    counts as given exactly when there is one; an attribute with any other
    key changes nothing, wherever it stands. *)
Theorem release_scan_keeps_last_of_each_key :
  (forall info,
      lock (release_scan info) = return_object info
      /\ found (release_scan info)
         = match supplied_exit_code info with Some _ => true | None => false end
      /\ (forall code, supplied_exit_code info = Some code ->
                       rl_exit_code (release_scan info) = code)
      /\ affected (release_scan info) = affected_proc info)
  /\ (forall before after i,
         key_is i PMIX_EVENT_RETURN_OBJECT = false ->
         key_is i PMIX_EXIT_CODE = false ->
         key_is i PMIX_EVENT_AFFECTED_PROC = false ->
         release_scan (before ++ i :: after) = release_scan (before ++ after)).
Proof.
  split; [exact release_scan_attributes|].
  intros before after i H1 H2 H3. unfold release_scan.
  rewrite !fold_left_app. cbn [fold_left].
  now rewrite release_scan_step_other.
Qed.

Lemma release_scan_keeps_last_of_each_key_witness :
  release_scan [ load_int32 PMIX_EXIT_CODE 1; load_bool PMIX_FWD_STDOUT;
                 load_int32 PMIX_EXIT_CODE 2 ]
  = release_scan [ load_int32 PMIX_EXIT_CODE 1; load_int32 PMIX_EXIT_CODE 2 ]
  /\ rl_exit_code (release_scan [ load_int32 PMIX_EXIT_CODE 1;
                                  load_int32 PMIX_EXIT_CODE 2 ]) = 2.
Proof.
  split.
  - apply (proj2 release_scan_keeps_last_of_each_key
             [load_int32 PMIX_EXIT_CODE 1] [load_int32 PMIX_EXIT_CODE 2]
             (load_bool PMIX_FWD_STDOUT)); vm_compute; reflexivity.
  - apply (proj1 release_scan_keeps_last_of_each_key
             [load_int32 PMIX_EXIT_CODE 1; load_int32 PMIX_EXIT_CODE 2]).
    vm_compute. reflexivity.
Defined.

(** X6.  The event handlers hand control back to the pipeline exactly
    once on every path that returns when a continuation was given, and
    never without one: [notification_fn] always, [release_fn] both when the
    return object is missing and when it is there. *)
Theorem event_handlers_acknowledge_once
  (info : list pmix_info_t) (cbfunc : bool) (st st' : state) :
  (notification_fn cbfunc st = (Ret tt, st') ->
   count is_notified (trace st')
   = (count is_notified (trace st) + if cbfunc then 1 else 0)%nat)
  /\ (release_fn info cbfunc st = (Ret tt, st') ->
      count is_notified (trace st')
      = (count is_notified (trace st) + if cbfunc then 1 else 0)%nat).
Proof.
  split.
  - unfold notification_fn, when, emit, modify, ret.
    destruct cbfunc; intros H; injection H as <-; cbn -[count];
      rewrite ?count_app; cbn; lia.
  - unfold release_fn. cbv zeta.
    destruct (lock (release_scan info)) as [[]|]; cbn [as_myrel];
      rewrite ?bind_ret_l, ?bind_halt_l;
      try (intros H; discriminate H);
      unfold wakeup_thread, update_lock, bind, when, emit, modify, ret;
      destruct (found (release_scan info)); destruct cbfunc;
      intros H; injection H as <-; cbn -[count];
      rewrite ?count_app; cbn; lia.
Qed.

Lemma event_handlers_acknowledge_once_witness :
  count is_notified (trace (snd (notification_fn true initial_state))) = 1%nat
  /\ count is_notified
       (trace (snd (release_fn [load_int32 PMIX_EXIT_CODE 3] true
                      initial_state))) = 1%nat.
Proof.
  split.
  - apply (proj1 (event_handlers_acknowledge_once [] true initial_state
                    (snd (notification_fn true initial_state)))).
    reflexivity.
  - apply (proj2 (event_handlers_acknowledge_once
                    [load_int32 PMIX_EXIT_CODE 3] true initial_state
                    (snd (release_fn [load_int32 PMIX_EXIT_CODE 3] true
                            initial_state)))).
    vm_compute. reflexivity.
Defined.

Lemma iof_reg_callbk_runs (status ref : Z) (cbdata : pointer) (st : state) :
  exists st',
    iof_reg_callbk status ref cbdata st = (Ret tt, st')
    /\ iof_handler_id st' = ref
    /\ calls (trace st') = calls (trace st)
    /\ application_namespace st' = application_namespace st
    /\ myrel st' = myrel st
    /\ (forall o, cbdata <> Some o -> locks st' o = locks st o)
    /\ (cbdata = None ->
        iof_registered st' = iof_registered st
        /\ count is_wakeup (trace st') = count is_wakeup (trace st)).
Proof.
  unfold iof_reg_callbk, wakeup_thread, update_lock, bind, when, emit,
    modify, get, ret.
  destruct (status =? PMIX_SUCCESS); destruct cbdata as [lock|];
    cbn -[count calls]; try destruct (iof_registered st =? 0);
    cbn -[count calls]; eexists; (split; [reflexivity|]);
    cbn -[count calls]; rewrite ?calls_snoc, ?count_app; cbn -[count calls];
    repeat split; try (cbn; lia); try discriminate;
    intros o Ho; destruct lock, o; try reflexivity; congruence.
Qed.

(** X7.  [iof_reg_callbk] records the handler reference on every call,
    the deregistration included, so after any series of calls
    [iof_handler_id] is the reference of the last one.  With a null
    [cbdata] it stops there: the already-registered flag is not set and
    nobody is woken. *)
Theorem iof_reg_callbk_records_last_reference :
  (forall (firings : list (Z * Z)) (status ref : Z) (cbdata : pointer)
          (st : state),
      exists st',
        for_each (firings ++ [(status, ref)])
          (fun f => iof_reg_callbk (fst f) (snd f) cbdata) st = (Ret tt, st')
        /\ iof_handler_id st' = ref)
  /\ (forall (status ref : Z) (st : state),
         exists st',
           iof_reg_callbk status ref None st = (Ret tt, st')
           /\ iof_handler_id st' = ref
           /\ iof_registered st' = iof_registered st
           /\ (forall o, locks st' o = locks st o)
           /\ count is_wakeup (trace st') = count is_wakeup (trace st)).
Proof.
  split.
  - induction firings as [|[s r] firings IH]; intros status ref cbdata st.
    + destruct (iof_reg_callbk_runs status ref cbdata st)
        as (st' & Hrun & Hid & _).
      exists st'. cbn [app for_each fst snd]. unfold bind. rewrite Hrun.
      split; [reflexivity | exact Hid].
    + destruct (iof_reg_callbk_runs s r cbdata st) as (st1 & Hrun & _).
      destruct (IH status ref cbdata st1) as (st' & Hrest & Hid).
      exists st'. cbn [app for_each fst snd]. unfold bind at 1.
      rewrite Hrun. split; assumption.
  - intros status ref st.
    destruct (iof_reg_callbk_runs status ref None st)
      as (st' & Hrun & Hid & _ & _ & _ & Hlocks & Hnull).
    destruct (Hnull eq_refl) as [Hflag Hwake].
    exists st'. repeat split; try assumption.
    intros o. apply Hlocks. discriminate.
Qed.

(** ** More on the Namespace Resolver *)

Lemma memcpy_size (dst src b : list byte) (off : Z) :
  Mem.memcpy dst off src = Some b -> Mem.size b = Mem.size dst.
Proof.
  unfold Mem.memcpy.
  destruct ((0 <=? off) && (off + Mem.size src <=? Mem.size dst)) eqn:E;
    [|discriminate].
  apply andb_prop in E. destruct E as [E1 E2].
  apply Z.leb_le in E1, E2. intros H. injection H as <-.
  unfold Mem.size in *. rewrite !length_app, length_firstn, length_skipn. lia.
Qed.

Lemma strncpy_first_entry (buf s : list byte) :
  strncpy buf s (Mem.size (first_entry (c_str s)))
  = Mem.memcpy buf 0 (first_entry (c_str s)).
Proof.
  pose proof (first_entry_length (c_str s)) as Hlen.
  unfold strncpy, Mem.size. rewrite Nat2Z.id.
  replace (length (first_entry (c_str s)) - length (c_str s))%nat with 0%nat
    by lia.
  simpl repeat. now rewrite app_nil_r, first_entry_firstn.
Qed.

(** X8.  The copy into [application_namespace] is not bounded by the
    size of the buffer: when the first entry of the answer is longer than
    [PMIX_MAX_NSLEN], the run leaves the buffer, with the copy or with the
    terminator written after it.  Up to there only the query was sent. *)
Theorem query_application_namespace_overflow
  (w : world) (nspace : list byte) (d : pmix_info_t) (st : state) :
  w_argv_append w = PMIX_SUCCESS ->
  w_query w = (PMIX_SUCCESS, [d]) ->
  type (value d) = PMIX_STRING ->
  Mem.size (application_namespace st) = PMIX_MAX_NSLEN + 1 ->
  PMIX_MAX_NSLEN < Mem.size (first_entry (c_str (data_string (value d))))
                 < 2 ^ 31 ->
  query_application_namespace w nspace st
  = (Stop Undefined, with_trace (trace st ++ [query_call nspace]) st).
Proof.
  intros Hargv Hq Ht Hbuf Hlong.
  pose proof (strchr_comma (data_string (value d))) as Hlen.
  unfold PMIX_MAX_NSLEN in *.
  unfold query_application_namespace. rewrite Hargv, Hq, Ht. simpl.
  unfold bind, get, emit, modify, defined, halt, ret. simpl.
  assert (Hint : match strchr (data_string (value d)) comma with
                 | Some p => int_of_Z p
                 | None => int_of_Z (strlen (data_string (value d)))
                 end = Mem.size (first_entry (c_str (data_string (value d))))).
  { destruct (strchr (data_string (value d)) comma);
      rewrite int_of_Z_small; lia. }
  rewrite Hint. rewrite size_t_of_Z_small by lia.
  rewrite strncpy_first_entry.
  destruct (Mem.memcpy (application_namespace st) 0
              (first_entry (c_str (data_string (value d))))) as [b1|] eqn:Hc;
    [|reflexivity].
  apply memcpy_size in Hc.
  unfold Mem.store, Mem.memcpy.
  replace (Mem.size (first_entry (c_str (data_string (value d))))
           + Mem.size [NUL] <=? Mem.size b1) with false
    by (symmetry; apply Z.leb_gt; change (Mem.size [NUL]) with 1; lia).
  rewrite andb_false_r. reflexivity.
Qed.

Lemma query_application_namespace_overflow_witness :
  fst (query_application_namespace
         (world_of [load_string PMIX_QUERY_NAMESPACES (long_name 256)] [])
         (lit "launch.1") initial_state) = Stop Undefined.
Proof.
  rewrite (query_application_namespace_overflow
             (world_of [load_string PMIX_QUERY_NAMESPACES (long_name 256)] [])
             (lit "launch.1")
             (load_string PMIX_QUERY_NAMESPACES (long_name 256))
             initial_state).
  - reflexivity.
  - reflexivity.
  - reflexivity.
  - reflexivity.
  - reflexivity.
  - vm_compute. split; reflexivity.
Defined.

Lemma query_application_namespace_frame
  (w : world) (nspace : list byte) (st st' : state) (r : result Z) :
  query_application_namespace w nspace st = (r, st') ->
  (r = Ret 0 \/ r = Ret (-1) \/ r = Stop Undefined)
  /\ (r <> Ret 0 -> application_namespace st' = application_namespace st)
  /\ iof_data st' = iof_data st
  /\ iof_size st' = iof_size st
  /\ iof_registered st' = iof_registered st
  /\ iof_handler_id st' = iof_handler_id st
  /\ locks st' = locks st
  /\ myrel st' = myrel st
  /\ (length (calls (trace st')) <= length (calls (trace st)) + 1)%nat.
Proof.
  unfold query_application_namespace. intros H.
  destruct (negb (PMIX_SUCCESS =? w_argv_append w)).
  { injection H as <- <-. cbn -[calls]. rewrite calls_snoc. cbn -[calls].
    repeat split; auto; lia. }
  destruct (w_query w) as [rc data].
  assert (Hwrong : forall m,
    (emit (Call (PMIx_Query_info [PMIX_QUERY_NAMESPACES]
                   [load_string PMIX_NSPACE nspace;
                    load_int32 PMIX_RANK (int_of_Z PMIX_RANK_WILDCARD)])) ;;
     emit (Stderr m) ;; ret (-1)) st = (r, st') ->
    (r = Ret 0 \/ r = Ret (-1) \/ r = Stop Undefined)
    /\ (r <> Ret 0 -> application_namespace st' = application_namespace st)
    /\ iof_data st' = iof_data st
    /\ iof_size st' = iof_size st
    /\ iof_registered st' = iof_registered st
    /\ iof_handler_id st' = iof_handler_id st
    /\ locks st' = locks st
    /\ myrel st' = myrel st
    /\ (length (calls (trace st')) <= length (calls (trace st)) + 1)%nat).
  { intros m Hm. injection Hm as <- <-. cbn -[calls].
    rewrite !calls_snoc. cbn -[calls]. rewrite length_app. cbn.
    repeat split; auto; lia. }
  destruct (negb (PMIX_SUCCESS =? rc)); [exact (Hwrong _ H)|].
  destruct data as [|d [|d' data]]; try exact (Hwrong _ H).
  destruct (negb (pmix_data_type_eqb PMIX_STRING (type (value d))));
    [exact (Hwrong _ H)|].
  clear Hwrong. unfold bind, emit, modify, get, defined, halt, ret in H.
  cbn beta iota in H.
  match type of H with
  | context [strncpy ?a ?b ?c] => destruct (strncpy a b c) as [b1|]
  end.
  - match type of H with
    | context [Mem.store ?a ?b ?c] => destruct (Mem.store a b c) as [b2|]
    end; injection H as <- <-; cbn -[calls]; rewrite calls_snoc;
      cbn -[calls]; rewrite length_app; cbn;
      repeat split; auto; try lia; intros Hr; congruence.
  - injection H as <- <-. cbn -[calls]. rewrite calls_snoc. cbn -[calls].
    rewrite length_app. cbn. repeat split; auto; lia.
Qed.

(** X9.  [query_application_namespace] returns 0 or [-1], or leaves the
    buffer; it never exits and never blocks, and it sends at most one PMIx
    call.  When it returns it has touched neither the forwarded data nor
    any lock nor the record, and when it returns [-1] the namespace
    resolved before is still in place. *)
Theorem query_application_namespace_outcomes
  (w : world) (nspace : list byte) (st st' : state) (r : result Z) :
  query_application_namespace w nspace st = (r, st') ->
  (r = Ret 0 \/ r = Ret (-1) \/ r = Stop Undefined)
  /\ (r = Ret (-1) -> application_namespace st' = application_namespace st)
  /\ (forall v, r = Ret v ->
                iof_data st' = iof_data st
                /\ iof_size st' = iof_size st
                /\ iof_registered st' = iof_registered st
                /\ iof_handler_id st' = iof_handler_id st
                /\ locks st' = locks st
                /\ myrel st' = myrel st)
  /\ (length (calls (trace st')) <= length (calls (trace st)) + 1)%nat.
Proof.
  intros H.
  destruct (query_application_namespace_frame w nspace st st' r H)
    as (Hr & Hn & Hd & Hs & Hf & Hi & Hl & Hm & Hc).
  split; [exact Hr|]. split; [|split; [|exact Hc]].
  - intros ->. apply Hn. discriminate.
  - intros v _. repeat split; assumption.
Qed.

Lemma query_application_namespace_outcomes_witness :
  fst (query_application_namespace query_refused (lit "launch.1") initial_state)
  = Ret (-1)
  /\ application_namespace
       (snd (query_application_namespace query_refused (lit "launch.1")
               initial_state)) = application_namespace initial_state
  /\ locks (snd (query_application_namespace query_refused (lit "launch.1")
                   initial_state)) = locks initial_state.
Proof.
  destruct (query_application_namespace_outcomes query_refused (lit "launch.1")
              initial_state
              (snd (query_application_namespace query_refused (lit "launch.1")
                      initial_state))
              (fst (query_application_namespace query_refused (lit "launch.1")
                      initial_state)))
    as (_ & Hn & Hframe & _).
  - apply surjective_pairing.
  - destruct (Hframe (-1) eq_refl) as (_ & _ & _ & _ & Hl & _).
    split; [reflexivity|]. split; [apply Hn; reflexivity | exact Hl].
Defined.

(** ** More on the Attach Orchestrator *)

Lemma release_fn_without_record (info : list pmix_info_t) (cbfunc : bool)
  (st st' : state) (r : result unit) :
  return_object info <> Some attach_myrel ->
  release_fn info cbfunc st = (r, st') ->
  locks st' = locks st.
Proof.
  intros Hobj. unfold release_fn. cbv zeta.
  rewrite (proj1 (release_scan_attributes info)).
  destruct (return_object info) as [[]|]; try contradiction;
    cbn [as_myrel]; rewrite ?bind_halt_l;
    unfold bind, when, emit, modify, halt, ret; destruct cbfunc;
    intros H; injection H as _ <-; reflexivity.
Qed.

Lemma deliver_signal (h : Mem.heap) (d : delivery) (st st' : state)
  (r : result unit) :
  deliver h d st = (r, st') ->
  signaled (locks st' attach_myrel) = true ->
  signaled (locks st attach_myrel) = true \/ carries_record d.
Proof.
  destruct d as [payload|info cbfunc]; simpl; intros H Hsig.
  - left. apply stdio_callback_buffer_frame in H.
    destruct H as (_ & _ & _ & Hl & _). now rewrite <- Hl.
  - destruct (return_object info) as [[]|] eqn:Hobj;
      try (right; reflexivity); left;
      rewrite <- (release_fn_without_record info cbfunc st st' r); trivial;
      rewrite Hobj; discriminate.
Qed.

Lemma deliveries_signal (h : Mem.heap) (l : list delivery) :
  forall (st st' : state) (r : result unit),
    for_each l (deliver h) st = (r, st') ->
    signaled (locks st' attach_myrel) = true ->
    signaled (locks st attach_myrel) = true \/ Exists carries_record l.
Proof.
  induction l as [|d l IH]; intros st st' r H Hsig.
  - injection H as _ <-. now left.
  - cbn [for_each] in H. unfold bind in H.
    destruct (deliver h d st) as [[u|stp] s1] eqn:E.
    + destruct (IH _ _ _ H Hsig) as [H1|H1].
      * destruct (deliver_signal h d st s1 _ E H1) as [H2|H2];
          [now left | right; now left].
      * right. now right.
    + injection H as _ <-.
      destruct (deliver_signal h d st s1 _ E Hsig) as [H2|H2];
        [now left | right; now left].
Qed.

Lemma deliveries_frame (h : Mem.heap) (l : list delivery) :
  steps delivery_frame (for_each l (deliver h)).
Proof.
  apply (steps_for_each _ delivery_frame_refl delivery_frame_trans).
  intros d _. apply deliver_delivery_frame.
Qed.

(** What a return of [attach_to_running_job] after a successful spawn
    tells. *)
Lemma attach_to_running_job_returns
  (w : world) (nspace : list byte) (st st' : state) (rc : Z) :
  fst (w_spawn w) = PMIX_SUCCESS ->
  attach_to_running_job w nspace st = (Ret rc, st') ->
  exists st1 r1 si refi refw,
    query_application_namespace w nspace st = (Ret r1, st1)
    /\ w_iof_registration w = Some (si, refi)
    /\ w_watch_registration w = Some (rc, refw)
    /\ iof_registered st1 = 0
    /\ iof_handler_id st' = refi
    /\ application_namespace st' = application_namespace st1
    /\ calls (trace st')
       = calls (trace st1)
         ++ [ spawn_call (application_namespace st1);
              pull_call (snd (w_spawn w)); watch_call (snd (w_spawn w)) ]
    /\ Exists carries_record (w_deliveries w).
Proof.
  intros Hs H. unfold attach_to_running_job in H. peel H.
  exists s, a.
  destruct (w_spawn w) as [rc0 dspace]. simpl in Hs. subst rc0.
  rewrite Z.eqb_refl in H. cbn [negb] in H.
  destruct (w_iof_registration w) as [[si refi]|];
    destruct (w_watch_registration w) as [[sw refw]|];
    unfold fire, iof_reg_callbk, evhandler_reg_callbk, wakeup_thread,
      wait_thread, construct_lock, update_lock, when, emit in H;
    unfold bind, get, modify, ret, halt in H;
    try destruct (si =? PMIX_SUCCESS); try destruct (sw =? PMIX_SUCCESS);
    cbn -[for_each spawn_directives watch_qualifiers Z.eqb] in H;
    try destruct (iof_registered s =? 0) eqn:Hreg;
    cbn -[for_each spawn_directives watch_qualifiers Z.eqb] in H;
    try discriminate H.
  all: match type of H with
       | context [for_each ?l ?f ?S] =>
           destruct (for_each l f S) as [[[]|stp] s13] eqn:Hdel
       end; cbn in H; try discriminate H.
  all: destruct (signaled (locks s13 attach_myrel)) eqn:Hsig;
    try discriminate H; injection H as <- <-.
  all: pose proof (deliveries_frame _ _ _ _ _ Hdel) as ((Hc & Hn & _) & Hid & _).
  all: destruct (deliveries_signal _ _ _ _ _ Hdel Hsig) as [Hno|Hex];
    [cbn in Hno; discriminate Hno|].
  all: exists si, refi, refw; apply Z.eqb_eq in Hreg.
  all: rewrite Hc, Hn, Hid; cbn -[calls spawn_directives watch_qualifiers];
    rewrite ?calls_snoc; cbn -[calls spawn_directives watch_qualifiers];
    rewrite <- ?app_assoc; repeat split; assumption.
Qed.

(** X10.  [attach_to_running_job] returns [-1] when the spawn is
    refused; otherwise what it returns is the status with which the
    registration of the termination watch completed.  The status of the
    registration of the I/O forwarding is read and then overwritten: a
    forwarding that could not be registered does not change the result. *)
Theorem attach_to_running_job_result
  (w : world) (nspace : list byte) (st st' : state) (rc : Z) :
  attach_to_running_job w nspace st = (Ret rc, st') ->
  (fst (w_spawn w) <> PMIX_SUCCESS /\ rc = -1)
  \/ (fst (w_spawn w) = PMIX_SUCCESS
      /\ (exists ref, w_watch_registration w = Some (rc, ref))
      /\ (exists status ref, w_iof_registration w = Some (status, ref))).
Proof.
  intros H.
  destruct (Z.eq_dec (fst (w_spawn w)) PMIX_SUCCESS) as [Hs|Hs].
  - right. split; [exact Hs|].
    destruct (attach_to_running_job_returns w nspace st st' rc Hs H)
      as (st1 & r1 & si & refi & refw & _ & Hi & Hw & _).
    split; [now exists refw | now exists si, refi].
  - left. split; [exact Hs|].
    unfold attach_to_running_job in H. do 3 peel H.
    destruct (w_spawn w) as [rc0 dspace]. simpl in Hs.
    destruct (Z.eqb_spec PMIX_SUCCESS rc0) as [E|E]; [congruence|].
    cbn [negb] in H. peel H. injection H as H _. now symmetry.
Qed.

Lemma attach_to_running_job_result_witness :
  (fst (w_spawn (world_of app_1 [terminated daemon_1 0])) <> PMIX_SUCCESS
   /\ 0 = -1)
  \/ (fst (w_spawn (world_of app_1 [terminated daemon_1 0])) = PMIX_SUCCESS
      /\ (exists ref,
             w_watch_registration (world_of app_1 [terminated daemon_1 0])
             = Some (0, ref))
      /\ (exists status ref,
             w_iof_registration (world_of app_1 [terminated daemon_1 0])
             = Some (status, ref))).
Proof.
  apply (attach_to_running_job_result
           (world_of app_1 [terminated daemon_1 0]) (lit "launch.1")
           initial_state
           (snd (attach_to_running_job
                   (world_of app_1 [terminated daemon_1 0]) (lit "launch.1")
                   initial_state)) 0).
  vm_compute. reflexivity.
Defined.

(** X11.  After a successful spawn [attach_to_running_job] returns only
    if a termination event whose return object is the record was delivered:
    chunks of output, and events without that back-reference, never end
    the wait. *)
Theorem attach_to_running_job_waits_for_the_record
  (w : world) (nspace : list byte) (st st' : state) (rc : Z) :
  fst (w_spawn w) = PMIX_SUCCESS ->
  attach_to_running_job w nspace st = (Ret rc, st') ->
  Exists carries_record (w_deliveries w).
Proof.
  intros Hs H.
  destruct (attach_to_running_job_returns w nspace st st' rc Hs H)
    as (st1 & r1 & si & refi & refw & _ & _ & _ & _ & _ & _ & _ & Hex).
  exact Hex.
Qed.

Lemma attach_to_running_job_waits_for_the_record_witness :
  Exists carries_record (w_deliveries (world_of app_1 [terminated daemon_1 0])).
Proof.
  apply (attach_to_running_job_waits_for_the_record
           (world_of app_1 [terminated daemon_1 0]) (lit "launch.1")
           initial_state
           (snd (attach_to_running_job
                   (world_of app_1 [terminated daemon_1 0]) (lit "launch.1")
                   initial_state)) 0).
  - reflexivity.
  - vm_compute. reflexivity.
Defined.

(** X12.  Whatever the resolver returned, success or failure,
    [attach_to_running_job] goes on to call [PMIx_Spawn], with the
    directives built from what [application_namespace] holds at that
    moment; this holds however the run ends afterwards. *)
Theorem attach_to_running_job_always_spawns
  (w : world) (nspace : list byte) (st st1 st' : state) (r1 : Z)
  (res : result Z) :
  query_application_namespace w nspace st = (Ret r1, st1) ->
  attach_to_running_job w nspace st = (res, st') ->
  In (spawn_call (application_namespace st1)) (trace st').
Proof.
  intros Hq H. unfold attach_to_running_job in H.
  unfold bind at 1 in H. rewrite Hq in H.
  unfold bind at 1, get at 1 in H. cbn beta iota in H.
  unfold bind at 1, emit at 1, modify at 1 in H. cbn beta iota in H.
  assert (Hrest : exists evs,
             trace st' = (trace st1 ++ [spawn_call (application_namespace st1)])
                         ++ evs).
  { destruct (w_spawn w) as [rc dspace].
    destruct (negb (PMIX_SUCCESS =? rc)).
    - injection H as _ <-. now eexists [_].
    - match type of H with
      | ?m ?S = _ => assert (Hext : extends m) by extends_callbacks
      end.
      exact (Hext _ _ _ H). }
  destruct Hrest as [evs ->].
  apply in_or_app. left. apply in_or_app. right. now left.
Qed.

Lemma attach_to_running_job_always_spawns_witness :
  In (spawn_call (application_namespace initial_state))
     (trace (snd (attach_to_running_job query_refused (lit "launch.1")
                    initial_state))).
Proof.
  apply (attach_to_running_job_always_spawns query_refused (lit "launch.1")
           initial_state
           (snd (query_application_namespace query_refused (lit "launch.1")
                   initial_state))
           (snd (attach_to_running_job query_refused (lit "launch.1")
                   initial_state))
           (-1)
           (fst (attach_to_running_job query_refused (lit "launch.1")
                   initial_state))).
  - vm_compute. reflexivity.
  - apply surjective_pairing.
Defined.

(** X13.  The waits have no bound: when the library never calls back
    for a registration, the tool blocks for ever.  This holds for the
    default handler registered by [main], for the I/O forwarding, and for
    the termination watch. *)
Theorem registration_without_callback_blocks :
  (forall (w : world) (argv : list (list byte)) (st : state),
      2 <= Z.of_nat (length argv) ->
      w_tool_init w = PMIX_SUCCESS ->
      w_default_registration w = None ->
      fst (main w argv st) = Stop Hang)
  /\ (forall (w : world) (nspace : list byte) (st st1 : state) (r1 : Z),
         query_application_namespace w nspace st = (Ret r1, st1) ->
         fst (w_spawn w) = PMIX_SUCCESS ->
         w_iof_registration w = None ->
         fst (attach_to_running_job w nspace st) = Stop Hang)
  /\ (forall (w : world) (nspace : list byte) (st st1 : state)
             (r1 status ref : Z),
         query_application_namespace w nspace st = (Ret r1, st1) ->
         fst (w_spawn w) = PMIX_SUCCESS ->
         w_iof_registration w = Some (status, ref) ->
         iof_registered st1 = 0 ->
         w_watch_registration w = None ->
         fst (attach_to_running_job w nspace st) = Stop Hang).
Proof.
  split; [|split].
  - intros w argv st Hargc Hinit Hreg. unfold main.
    replace (Z.of_nat (length argv) <? 2) with false
      by (symmetry; apply Z.ltb_ge; exact Hargc).
    rewrite Hinit, Hreg, Z.eqb_refl. cbn [negb].
    unfold fire, wait_thread, construct_lock, update_lock, emit.
    unfold bind, get, modify, ret, halt. reflexivity.
  - intros w nspace st st1 r1 Hq Hs Hreg. unfold attach_to_running_job.
    unfold bind at 1. rewrite Hq, Hreg.
    destruct (w_spawn w) as [rc dspace]. simpl in Hs. subst rc.
    unfold fire, wait_thread, construct_lock, update_lock, emit.
    unfold bind, get, modify, ret, halt. reflexivity.
  - intros w nspace st st1 r1 status ref Hq Hs Hreg Hflag Hwatch.
    unfold attach_to_running_job.
    unfold bind at 1. rewrite Hq, Hreg, Hwatch.
    destruct (w_spawn w) as [rc dspace]. simpl in Hs. subst rc.
    unfold fire, iof_reg_callbk, wakeup_thread, wait_thread, construct_lock,
      update_lock, when, emit.
    unfold bind, get, modify, ret, halt.
    destruct (status =? PMIX_SUCCESS); cbn; rewrite Hflag; reflexivity.
Qed.

Lemma registration_without_callback_blocks_witness :
  fst (main no_default_registration command_line initial_state) = Stop Hang
  /\ fst (attach_to_running_job no_iof_registration (lit "launch.1")
            initial_state) = Stop Hang
  /\ fst (attach_to_running_job no_watch_registration (lit "launch.1")
            initial_state) = Stop Hang.
Proof.
  destruct registration_without_callback_blocks as (H1 & H2 & H3).
  split; [|split].
  - apply H1; [vm_compute; discriminate | reflexivity | reflexivity].
  - apply (H2 no_iof_registration (lit "launch.1") initial_state
             (snd (query_application_namespace no_iof_registration
                     (lit "launch.1") initial_state)) 0);
      [vm_compute; reflexivity | reflexivity | reflexivity].
  - apply (H3 no_watch_registration (lit "launch.1") initial_state
             (snd (query_application_namespace no_watch_registration
                     (lit "launch.1") initial_state)) 0 PMIX_SUCCESS 2);
      [vm_compute; reflexivity | reflexivity | reflexivity | reflexivity
      | reflexivity].
Defined.

(** X14.  [attach_to_running_job] can run once per process.  When the
    already-registered flag is set, as a first run leaves it, the
    registration callback of a new forwarding request is taken for a
    deregistration and wakes nobody: after a successful spawn the tool
    blocks on the forwarding lock. *)
Theorem attach_to_running_job_blocks_when_already_registered
  (w : world) (nspace : list byte) (st st1 : state) (r1 : Z) :
  iof_registered st <> 0 ->
  query_application_namespace w nspace st = (Ret r1, st1) ->
  fst (w_spawn w) = PMIX_SUCCESS ->
  fst (attach_to_running_job w nspace st) = Stop Hang.
Proof.
  intros Hflag Hq Hs.
  assert (Hflag1 : (iof_registered st1 =? 0) = false).
  { apply Z.eqb_neq.
    destruct (query_application_namespace_frame _ _ _ _ _ Hq)
      as (_ & _ & _ & _ & Hr & _). now rewrite Hr. }
  unfold attach_to_running_job. unfold bind at 1. rewrite Hq.
  destruct (w_spawn w) as [rc dspace]. simpl in Hs. subst rc.
  unfold fire, iof_reg_callbk, wakeup_thread, wait_thread, construct_lock,
    update_lock, when, emit.
  unfold bind, get, modify, ret, halt.
  destruct (w_iof_registration w) as [[status ref]|];
    [destruct (status =? PMIX_SUCCESS)|]; cbn; rewrite ?Hflag1; reflexivity.
Qed.

Lemma attach_to_running_job_blocks_when_already_registered_witness :
  iof_registered after_one_attach = 1
  /\ fst (attach_to_running_job (world_of app_1 [terminated daemon_1 0])
            (lit "launch.1") after_one_attach) = Stop Hang.
Proof.
  split; [reflexivity|].
  apply (attach_to_running_job_blocks_when_already_registered
           (world_of app_1 [terminated daemon_1 0]) (lit "launch.1")
           after_one_attach
           (snd (query_application_namespace
                   (world_of app_1 [terminated daemon_1 0]) (lit "launch.1")
                   after_one_attach)) 0).
  - vm_compute. discriminate.
  - vm_compute. reflexivity.
  - reflexivity.
Defined.

(** ** More on [main] *)

(** X15.  [main] gives up before anything else when the namespace
    argument is missing: one usage line that names the program, exit code
    1, no PMIx call.  When [PMIx_tool_init] fails it exits with that status
    right after the call, having registered nothing. *)
Theorem main_gives_up_early :
  (forall (w : world) (argv : list (list byte)) (st : state),
      Z.of_nat (length argv) < 2 ->
      main w argv st
      = (Stop (Exit 1),
         with_trace
           (trace st ++ [Stderr (Usage (nth 0 argv (lit "(null)")))]) st))
  /\ (forall (w : world) (argv : list (list byte)) (st : state),
         2 <= Z.of_nat (length argv) ->
         w_tool_init w <> PMIX_SUCCESS ->
         main w argv st
         = (Stop (Exit (w_tool_init w)),
            with_trace (trace st ++ [init_call;
                                     Stderr (Tool_init_failed (w_tool_init w))])
                       st)).
Proof.
  split.
  - intros w argv st Hargc. unfold main.
    replace (Z.of_nat (length argv) <? 2) with true
      by (symmetry; apply Z.ltb_lt; exact Hargc).
    reflexivity.
  - intros w argv st Hargc Hinit. unfold main.
    replace (Z.of_nat (length argv) <? 2) with false
      by (symmetry; apply Z.ltb_ge; exact Hargc).
    destruct (Z.eqb_spec PMIX_SUCCESS (w_tool_init w)) as [E|E];
      [congruence|].
    cbn [negb]. unfold bind, emit, modify, halt. cbn.
    now rewrite <- app_assoc.
Qed.

(** The tool started as [attach], without a namespace; and started with
    one while [PMIx_tool_init] answers [-31]. *)
Lemma main_gives_up_early_witness :
  main spawn_refused [lit "attach"] initial_state
  = (Stop (Exit 1),
     with_trace (trace initial_state ++ [Stderr (Usage (lit "attach"))])
                initial_state)
  /\ main init_refused command_line initial_state
     = (Stop (Exit (-31)),
        with_trace (trace initial_state
                    ++ [init_call; Stderr (Tool_init_failed (-31))])
                   initial_state).
Proof.
  split.
  - apply (proj1 main_gives_up_early spawn_refused [lit "attach"]
             initial_state).
    vm_compute. reflexivity.
  - apply (proj2 main_gives_up_early init_refused command_line initial_state).
    + vm_compute. discriminate.
    + vm_compute. discriminate.
Defined.

Lemma query_application_namespace_calls
  (w : world) (nspace : list byte) (st st1 : state) (r : Z) :
  query_application_namespace w nspace st = (Ret r, st1) ->
  calls (trace st1) = calls (trace st) ++ query_calls w nspace.
Proof.
  unfold query_application_namespace, query_calls. intros H.
  destruct (PMIX_SUCCESS =? w_argv_append w); cbn [negb] in H.
  2:{ injection H as _ <-. cbn -[calls]. rewrite calls_snoc. cbn -[calls].
      now rewrite app_nil_r. }
  destruct (w_query w) as [rc data].
  assert (Hwrong : forall m,
    (emit (query_call nspace) ;; emit (Stderr m) ;; ret (-1)) st = (Ret r, st1) ->
    calls (trace st1) = calls (trace st) ++ [query_call nspace]).
  { intros m Hm. injection Hm as _ <-. cbn -[calls].
    now rewrite !calls_snoc. }
  destruct (negb (PMIX_SUCCESS =? rc)); [exact (Hwrong _ H)|].
  destruct data as [|d [|d' data]]; try exact (Hwrong _ H).
  destruct (negb (pmix_data_type_eqb PMIX_STRING (type (value d))));
    [exact (Hwrong _ H)|].
  clear Hwrong. unfold bind, emit, modify, get, defined, halt, ret in H.
  cbn beta iota in H.
  match type of H with
  | context [strncpy ?a ?b ?c] => destruct (strncpy a b c) as [b1|]
  end; [|discriminate H].
  match type of H with
  | context [Mem.store ?a ?b ?c] => destruct (Mem.store a b c) as [b2|]
  end; [|discriminate H].
  injection H as _ <-. cbn -[calls]. now rewrite calls_snoc.
Qed.

Ltac peel_as H a s Hm :=
  apply bind_ret_inv in H; destruct H as (a & s & Hm & H).

(** What a return of [main] tells. *)
Lemma main_returns (w : world) (argv : list (list byte)) (st st' : state)
  (rc : Z) :
  main w argv st = (Ret rc, st') ->
  exists s5 s6 a,
    attach_to_running_job w (c_str (nth 1 argv [])) s5 = (Ret a, s6)
    /\ calls (trace s5) = calls (trace st) ++ [init_call; default_handler_call]
    /\ iof_handler_id s5 = iof_handler_id st
    /\ calls (trace st')
       = calls (trace s6) ++ [deregister_call (iof_handler_id s6); finalize_call]
    /\ application_namespace st' = application_namespace s6.
Proof.
  unfold main. intros H.
  destruct (Z.of_nat (length argv) <? 2); [peel H; discriminate H|].
  destruct (negb (PMIX_SUCCESS =? w_tool_init w)); [do 2 peel H; discriminate H|].
  peel_as H u1 t1 E1. peel_as H u2 t2 E2. peel_as H u3 t3 E3.
  peel_as H u4 t4 E4.
  injection E1 as _ <-. injection E2 as _ <-. injection E3 as _ <-.
  assert (Hs2 : calls (trace t4)
                = calls (trace st) ++ [init_call; default_handler_call]
                /\ iof_handler_id t4 = iof_handler_id st).
  { destruct (w_default_registration w) as [[sd refd]|]; cbn [fire] in E4.
    - match type of E4 with
      | evhandler_reg_callbk _ _ _ ?S = _ =>
          destruct (evhandler_reg_callbk_runs sd refd (Some main_mylock) S)
            as (x & Hx & (Hxc & _) & Hxi & _)
      end.
      rewrite Hx in E4. injection E4 as _ <-.
      rewrite Hxc, Hxi. cbn -[calls]. rewrite !calls_snoc. cbn -[calls].
      rewrite <- app_assoc. now split.
    - injection E4 as _ <-. cbn -[calls]. rewrite !calls_snoc. cbn -[calls].
      rewrite <- app_assoc. now split. }
  destruct Hs2 as [Hc2 Hi2]. clear E4.
  peel_as H u5 t5 E5. unfold wait_thread, bind, get, ret, halt in E5.
  cbn beta iota in E5.
  destruct (signaled (locks t4 main_mylock)); [|discriminate E5].
  injection E5 as _ <-.
  peel_as H a6 t6 E6. exists t4, t6, a6. split; [exact E6|].
  split; [exact Hc2|]. split; [exact Hi2|].
  peel_as H u7 t7 E7. peel_as H a8 t8 E8. peel_as H u9 t9 E9.
  peel_as H u10 t10 E10. peel_as H a11 t11 E11. peel_as H u12 t12 E12.
  injection H as _ <-.
  assert (H7 : calls (trace t7) = calls (trace t6)
               /\ iof_handler_id t7 = iof_handler_id t6
               /\ application_namespace t7 = application_namespace t6).
  { destruct (negb (PMIX_SUCCESS =? a6)); injection E7 as _ <-;
      cbn -[calls]; rewrite ?calls_snoc; repeat split. }
  destruct H7 as (Hc7 & Hi7 & Hn7).
  injection E8 as <- <-. injection E9 as _ <-. injection E10 as _ <-.
  injection E11 as <- <-.
  destruct (iof_data _); injection E12 as _ <-; cbn -[calls];
    rewrite ?calls_snoc; cbn -[calls]; rewrite Hc7, Hi7, Hn7,
    <- app_assoc; split; reflexivity.
Qed.

Lemma attach_to_running_job_refused
  (w : world) (nspace : list byte) (st st' : state) (rc : Z) :
  fst (w_spawn w) <> PMIX_SUCCESS ->
  attach_to_running_job w nspace st = (Ret rc, st') ->
  exists st1 r1,
    query_application_namespace w nspace st = (Ret r1, st1)
    /\ calls (trace st') = calls (trace st1)
                           ++ [spawn_call (application_namespace st1)]
    /\ iof_handler_id st' = iof_handler_id st1
    /\ application_namespace st' = application_namespace st1
    /\ iof_data st' = iof_data st1.
Proof.
  intros Hs H. unfold attach_to_running_job in H.
  peel_as H r1 st1 Hq. exists st1, r1. split; [exact Hq|].
  peel_as H t2 s2 E2. injection E2 as <- <-.
  peel_as H u3 s3 E3. injection E3 as _ <-.
  destruct (w_spawn w) as [rc0 dspace]. simpl in Hs.
  destruct (Z.eqb_spec PMIX_SUCCESS rc0) as [E|E]; [congruence|].
  cbn [negb] in H. injection H as _ <-. cbn -[calls].
  rewrite !calls_snoc. cbn -[calls]. repeat split.
Qed.

(** X16.  The PMIx calls of a run of [main] that returns after a
    successful spawn are, in this order and nothing else: tool
    initialisation, the default handler, the namespace query (left out
    when the query could not be built), the spawn, the forwarding request,
    the termination watch, the deregistration of the forwarding and the
    finalisation.  Each is made once, and the handler deregistered is the
    one whose reference the forwarding registration gave. *)
Theorem main_call_sequence
  (w : world) (argv : list (list byte)) (st st' : state) (rc : Z) :
  main w argv st = (Ret rc, st') ->
  fst (w_spawn w) = PMIX_SUCCESS ->
  exists status ref,
    w_iof_registration w = Some (status, ref)
    /\ calls (trace st')
       = calls (trace st)
         ++ [init_call; default_handler_call]
         ++ query_calls w (c_str (nth 1 argv []))
         ++ [ spawn_call (application_namespace st');
              pull_call (snd (w_spawn w)); watch_call (snd (w_spawn w));
              deregister_call ref; finalize_call ].
Proof.
  intros H Hs.
  destruct (main_returns w argv st st' rc H)
    as (s5 & s6 & a & Hatt & Hc5 & _ & Hc' & Hn').
  destruct (attach_to_running_job_returns w _ s5 s6 a Hs Hatt)
    as (st1 & r1 & si & refi & refw & Hq & Hi & _ & _ & Hid & Hn6 & Hc6 & _).
  pose proof (query_application_namespace_calls w _ s5 st1 r1 Hq) as Hc1.
  exists si, refi. split; [exact Hi|].
  rewrite Hc', Hc6, Hc1, Hc5, Hid, Hn', Hn6.
  rewrite <- !app_assoc. reflexivity.
Qed.

(** A complete run, and one in which the query could not be built. *)
Lemma main_call_sequence_witness :
  (exists status ref,
      w_iof_registration (world_of app_1 [terminated daemon_1 0])
      = Some (status, ref)
      /\ calls (trace after_one_attach)
         = calls (trace initial_state)
           ++ [init_call; default_handler_call]
           ++ query_calls (world_of app_1 [terminated daemon_1 0])
                (c_str (nth 1 command_line []))
           ++ [ spawn_call (application_namespace after_one_attach);
                pull_call (lit "debug.1"); watch_call (lit "debug.1");
                deregister_call ref; finalize_call ])
  /\ (exists status ref,
         w_iof_registration query_not_built = Some (status, ref)
         /\ calls (trace (snd (main query_not_built command_line
                                 initial_state)))
            = calls (trace initial_state)
              ++ [init_call; default_handler_call]
              ++ query_calls query_not_built (c_str (nth 1 command_line []))
              ++ [ spawn_call
                     (application_namespace
                        (snd (main query_not_built command_line
                                initial_state)));
                   pull_call (lit "debug.1"); watch_call (lit "debug.1");
                   deregister_call ref; finalize_call ]).
Proof.
  split.
  - apply (main_call_sequence (world_of app_1 [terminated daemon_1 0])
             command_line initial_state after_one_attach 0).
    + vm_compute. reflexivity.
    + reflexivity.
  - apply (main_call_sequence query_not_built command_line initial_state
             (snd (main query_not_built command_line initial_state)) 0).
    + vm_compute. reflexivity.
    + reflexivity.
Defined.

(** X17.  When the spawn is refused, a run of [main] that returns has
    asked for no forwarding and no watch, and still calls
    [PMIx_IOF_deregister]: with the handler id it started with (0 in a
    fresh process), since no registration ever set it. *)
Theorem main_deregisters_after_refused_spawn
  (w : world) (argv : list (list byte)) (st st' : state) (rc : Z) :
  main w argv st = (Ret rc, st') ->
  fst (w_spawn w) <> PMIX_SUCCESS ->
  calls (trace st')
  = calls (trace st)
    ++ [init_call; default_handler_call]
    ++ query_calls w (c_str (nth 1 argv []))
    ++ [ spawn_call (application_namespace st');
         deregister_call (iof_handler_id st); finalize_call ].
Proof.
  intros H Hs.
  destruct (main_returns w argv st st' rc H)
    as (s5 & s6 & a & Hatt & Hc5 & Hi5 & Hc' & Hn').
  destruct (attach_to_running_job_refused w _ s5 s6 a Hs Hatt)
    as (st1 & r1 & Hq & Hc6 & Hi6 & Hn6 & _).
  pose proof (query_application_namespace_calls w _ s5 st1 r1 Hq) as Hc1.
  destruct (query_application_namespace_frame _ _ _ _ _ Hq)
    as (_ & _ & _ & _ & _ & Hi1 & _).
  rewrite Hc', Hc6, Hc1, Hc5, Hi6, Hi1, Hi5, Hn', Hn6.
  rewrite <- !app_assoc. reflexivity.
Qed.

Lemma main_deregisters_after_refused_spawn_witness :
  calls (trace (snd (main spawn_refused command_line initial_state)))
  = calls (trace initial_state)
    ++ [init_call; default_handler_call]
    ++ query_calls spawn_refused (c_str (nth 1 command_line []))
    ++ [ spawn_call (application_namespace
                       (snd (main spawn_refused command_line initial_state)));
         deregister_call (iof_handler_id initial_state); finalize_call ].
Proof.
  apply (main_deregisters_after_refused_spawn spawn_refused command_line
           initial_state
           (snd (main spawn_refused command_line initial_state)) 0).
  - vm_compute. reflexivity.
  - vm_compute. discriminate.
Defined.

(** X18.  Whenever [main] returns, the value it returns is the one
    [PMIx_IOF_deregister] returned, whatever [attach_to_running_job]
    returned before. *)
Theorem main_returns_what_deregister_returned
  (w : world) (argv : list (list byte)) (st st' : state) (rc : Z) :
  main w argv st = (Ret rc, st') -> rc = w_iof_deregister w.
Proof. exact (main_returns_deregister_status w argv st st' rc). Qed.

Lemma main_returns_what_deregister_returned_witness :
  0 = w_iof_deregister spawn_refused.
Proof.
  apply (main_returns_what_deregister_returned spawn_refused command_line
           initial_state
           (snd (main spawn_refused command_line initial_state)) 0).
  vm_compute. reflexivity.
Defined.

(** ** More on [schizo_slurm.c] *)

(** X20.  Once the line is read, the run is defined exactly when the
    line gives at least one field: with a field the helper always reports
    success; with none it reads [res[cnt-1]] before the start of an empty
    array. *)
Theorem get_remaining_time_needs_a_field
  (e : environment) (timeleft : Z) (jobid : list byte) :
  getenv_SLURM_JOBID e = Some jobid ->
  0 <= prte_asprintf e jobid ->
  popen_ok e = true ->
  fgets_ok e = true ->
  Z.of_nat (length (fields e)) < 2 ^ 64 ->
  (fields e = [] -> get_remaining_time e timeleft = None)
  /\ (fields e <> [] ->
      exists v, get_remaining_time e timeleft = Some (PRTE_SUCCESS, v)).
Proof.
  intros Hjob Hfmt Hopen Hread Hsize. split.
  - intros Hnone. unfold get_remaining_time.
    rewrite Hjob, Hopen, Hread, Hnone.
    replace (0 >? prte_asprintf e jobid) with false
      by (symmetry; rewrite Z.gtb_ltb; apply Z.ltb_ge; exact Hfmt).
    reflexivity.
  - intros Hsome.
    destruct (get_remaining_time_reads e timeleft jobid Hjob Hfmt Hopen Hread)
      as [Hfew Hmany].
    assert (Hlen : (1 <= length (fields e))%nat).
    { destruct (fields e); [contradiction | simpl; lia]. }
    destruct (Nat.le_gt_cases (length (fields e)) 4) as [Hle|Hgt].
    + eexists. apply Hfew. lia.
    + eexists. apply Hmany; [exact Hgt | exact Hsize].
Qed.

Lemma get_remaining_time_needs_a_field_witness :
  get_remaining_time (squeue_prints []) 0 = None
  /\ exists v, get_remaining_time (squeue_prints [5; 0]) 0
               = Some (PRTE_SUCCESS, v).
Proof.
  split.
  - apply (proj1 (get_remaining_time_needs_a_field (squeue_prints []) 0
                    (lit "4242") eq_refl ltac:(vm_compute; discriminate)
                    eq_refl eq_refl ltac:(vm_compute; reflexivity))).
    reflexivity.
  - apply (proj2 (get_remaining_time_needs_a_field (squeue_prints [5; 0]) 0
                    (lit "4242") eq_refl ltac:(vm_compute; discriminate)
                    eq_refl eq_refl ltac:(vm_compute; reflexivity))).
    discriminate.
Defined.

Lemma seconds_leading_zero (res : list Z) :
  (1 <= length res <= 3)%nat -> seconds (0 :: res) = seconds res.
Proof.
  intros H. destruct res as [|a [|b [|c [|d l]]]]; cbn [length] in H; try lia;
    unfold seconds; cbn [rev app nth]; lia.
Qed.

(** X21.  A leading field that is zero does not change the time
    reported, as long as there are at most four fields in all: [0:05:00]
    is read like [05:00]. *)
Theorem get_remaining_time_leading_zero
  (e : environment) (timeleft : Z) (jobid : list byte) (res : list Z) :
  getenv_SLURM_JOBID e = Some jobid ->
  0 <= prte_asprintf e jobid ->
  popen_ok e = true ->
  fgets_ok e = true ->
  (1 <= length res <= 3)%nat ->
  get_remaining_time (with_fields e (0 :: res)) timeleft
  = get_remaining_time (with_fields e res) timeleft.
Proof.
  intros Hjob Hfmt Hopen Hread Hlen.
  rewrite (proj1 (get_remaining_time_reads (with_fields e (0 :: res)) timeleft
                    jobid Hjob Hfmt Hopen Hread))
    by (cbn [fields with_fields length]; lia).
  rewrite (proj1 (get_remaining_time_reads (with_fields e res) timeleft
                    jobid Hjob Hfmt Hopen Hread))
    by (cbn [fields with_fields]; lia).
  cbn [fields with_fields]. now rewrite seconds_leading_zero.
Qed.

Lemma get_remaining_time_leading_zero_witness :
  get_remaining_time (with_fields (squeue_prints []) [0; 5; 0]) 0
  = get_remaining_time (with_fields (squeue_prints []) [5; 0]) 0.
Proof.
  apply (get_remaining_time_leading_zero (squeue_prints []) 0 (lit "4242")
           [5; 0]).
  - reflexivity.
  - vm_compute. discriminate.
  - reflexivity.
  - reflexivity.
  - simpl. lia.
Defined.

(** ** The components together *)

Lemma for_each_app {A} (l1 l2 : list A) (body : A -> M unit) (st : state) :
  for_each (l1 ++ l2) body st
  = (for_each l1 body ;; for_each l2 body) st.
Proof.
  revert st. induction l1 as [|a l1 IH]; intros st; cbn [app for_each].
  - reflexivity.
  - unfold bind. destruct (body a st) as [[u|stp] s1]; [|reflexivity].
    rewrite IH. reflexivity.
Qed.

Lemma for_each_chunks (h : Mem.heap) (chunks : list (list byte)) (st : state) :
  for_each (map Chunk chunks) (deliver h) st
  = for_each chunks (stdio_callback h) st.
Proof.
  revert st. induction chunks as [|c cs IH]; intros st; cbn [map for_each].
  - reflexivity.
  - unfold bind. cbn [deliver].
    destruct (stdio_callback h c st) as [[u|stp] s1]; [apply IH | reflexivity].
Qed.

Lemma release_fn_keeps_buffer (info : list pmix_info_t) (cbfunc : bool)
  (st st' : state) (r : result unit) :
  release_fn info cbfunc st = (r, st') ->
  iof_data st' = iof_data st /\ iof_size st' = iof_size st.
Proof.
  unfold release_fn. cbv zeta.
  destruct (lock (release_scan info)) as [[]|]; cbn [as_myrel];
    rewrite ?bind_ret_l, ?bind_halt_l;
    unfold wakeup_thread, update_lock, bind, when, emit, modify, halt, ret;
    destruct (found (release_scan info)); destruct cbfunc;
    intros H; injection H as _ <-; split; reflexivity.
Qed.

(** The deliveries of a complete run: the chunks, then the termination
    of the daemon. *)
Lemma deliveries_of_a_complete_run
  (h : Mem.heap) (c : list byte) (cs : list (list byte))
  (info : list pmix_info_t) (cbfunc : bool) (st : state) :
  iof_data st = None ->
  (forall n, 0 < n <= total_size (c :: cs) + 1 -> Mem.alloc_ok h n = true) ->
  Mem.size c < INT_MAX ->
  total_size (c :: cs) <= INT_MAX ->
  return_object info = Some attach_myrel ->
  exists st',
    for_each (map Chunk (c :: cs) ++ [Termination info cbfunc]) (deliver h) st
    = (Ret tt, st')
    /\ iof_data st' = Some (concat (c :: cs) ++ [NUL])
    /\ iof_size st' = total_size (c :: cs)
    /\ signaled (locks st' attach_myrel) = true
    /\ (forall o, o <> attach_myrel -> locks st' o = locks st o)
    /\ iof_handler_id st' = iof_handler_id st
    /\ myrel st' = match supplied_exit_code info with
                   | Some code => {| rel_nspace := rel_nspace (myrel st);
                                     exit_code := code;
                                     exit_code_given := true |}
                   | None => myrel st
                   end.
Proof.
  intros Hnull Hok Hc Hfit Hobj. simpl in Hok, Hfit.
  pose proof (size_nonneg c) as Hc0.
  assert (Hcs : 0 <= total_size cs)
    by (rewrite total_size_concat; apply size_nonneg).
  destruct (stdio_callback_first h c st Hnull) as (st1 & Hrun1 & Hagg1);
    [apply Hok; lia | lia |].
  destruct (stdio_callback_rest h cs c st1 Hagg1) as (st2 & Hrun2 & Hd & Hs);
    [intros n Hn; apply Hok; lia | lia |].
  assert (Hchunks : for_each (c :: cs) (stdio_callback h) st = (Ret tt, st2)).
  { cbn [for_each]. unfold bind at 1. rewrite Hrun1. exact Hrun2. }
  assert (Hframe : buffer_frame st st2).
  { refine (steps_for_each _ buffer_frame_refl buffer_frame_trans (c :: cs)
              (stdio_callback h) _ st (Ret tt) st2 Hchunks).
    intros p _. apply stdio_callback_buffer_frame. }
  destruct Hframe as (_ & _ & Hid2 & Hl2 & Hr2 & _).
  destruct (release_fn_with_record info cbfunc st2 Hobj)
    as (st3 & Hrun3 & Hrel & Hsig & Hothers & _).
  destruct (release_fn_keeps_buffer info cbfunc st2 st3 _ Hrun3) as [Hd3 Hs3].
  pose proof (release_fn_delivery_frame info cbfunc st2 _ st3 Hrun3)
    as (_ & Hid3 & _).
  exists st3. rewrite for_each_app. unfold bind at 1.
  rewrite for_each_chunks, Hchunks. cbn [for_each deliver].
  unfold bind at 1. rewrite Hrun3.
  split; [reflexivity|]. split; [now rewrite Hd3|].
  split; [rewrite Hs3, Hs, size_app, <- total_size_concat; reflexivity|].
  split; [exact Hsig|]. split; [|split].
  - intros o Ho. rewrite (Hothers o Ho). now rewrite Hl2.
  - now rewrite Hid3.
  - rewrite Hrel, Hr2. reflexivity.
Qed.

(** A complete run of the attach sequence. *)
Lemma attach_to_running_job_collects
  (w : world) (nspace : list byte) (st st1 : state)
  (r1 si refi sw refw : Z) (c : list byte) (cs : list (list byte))
  (info : list pmix_info_t) (cbfunc : bool) :
  query_application_namespace w nspace st = (Ret r1, st1) ->
  fst (w_spawn w) = PMIX_SUCCESS ->
  w_iof_registration w = Some (si, refi) ->
  w_watch_registration w = Some (sw, refw) ->
  w_deliveries w = map Chunk (c :: cs) ++ [Termination info cbfunc] ->
  return_object info = Some attach_myrel ->
  iof_registered st = 0 ->
  iof_data st = None ->
  (forall n, 0 < n <= total_size (c :: cs) + 1 ->
             Mem.alloc_ok (w_heap w) n = true) ->
  Mem.size c < INT_MAX ->
  total_size (c :: cs) <= INT_MAX ->
  exists st',
    attach_to_running_job w nspace st = (Ret sw, st')
    /\ iof_data st' = Some (concat (c :: cs) ++ [NUL])
    /\ iof_size st' = total_size (c :: cs)
    /\ iof_handler_id st' = refi
    /\ iof_registered st' = 1
    /\ rel_nspace (myrel st') = c_str (snd (w_spawn w))
    /\ (forall code, supplied_exit_code info = Some code ->
                     exit_code (myrel st') = code
                     /\ exit_code_given (myrel st') = true).
Proof.
  intros Hq Hs Hi Hw Hdel Hobj Hflag Hnull Hok Hc Hfit.
  destruct (query_application_namespace_frame _ _ _ _ _ Hq)
    as (_ & _ & Hd1 & _ & Hr1 & _).
  rewrite <- Hd1 in Hnull. rewrite <- Hr1 in Hflag. apply Z.eqb_eq in Hflag.
  unfold attach_to_running_job. unfold bind at 1. rewrite Hq, Hi, Hw, Hdel.
  destruct (w_spawn w) as [rc dspace]. simpl in Hs. subst rc.
  rewrite Z.eqb_refl. cbn [negb snd].
  unfold fire, iof_reg_callbk, evhandler_reg_callbk, wakeup_thread,
    wait_thread, construct_lock, update_lock, when, emit.
  unfold bind, get, modify, ret, halt.
  destruct (si =? PMIX_SUCCESS); destruct (sw =? PMIX_SUCCESS);
    cbn -[for_each spawn_directives watch_qualifiers Z.eqb map app];
    rewrite Hflag;
    cbn -[for_each spawn_directives watch_qualifiers Z.eqb map app];
    match goal with
    | |- context [for_each ?l ?f ?S] =>
        destruct (deliveries_of_a_complete_run (w_heap w) c cs info cbfunc S
                    Hnull Hok Hc Hfit Hobj)
          as (s13 & Hrun & Hdata & Hsize & Hsig & _ & Hid & Hrel)
    end;
    rewrite Hrun; cbn -[for_each spawn_directives watch_qualifiers];
    rewrite Hsig; eexists; (split; [reflexivity|]);
    (split; [exact Hdata|]); (split; [exact Hsize|]);
    (split; [exact Hid|]);
    destruct (deliveries_frame _ _ _ _ _ Hrun) as ((_ & _ & Hreg) & _);
    (split; [exact Hreg|]);
    rewrite Hrel; destruct (supplied_exit_code info);
    (split; [reflexivity|]); intros code Hcode;
    try discriminate Hcode; injection Hcode as <-; split; reflexivity.
Qed.

(** X23.  The components together.  When the resolver returns, the
    spawn succeeds, both registrations complete, and the runtime delivers
    the chunks of output followed by the termination of the daemon with
    the back-reference to the record, [attach_to_running_job] returns the
    status of the watch registration; it leaves the chunks concatenated
    and terminated in the buffer, the handler reference of the forwarding
    in [iof_handler_id], and in the record the namespace of the daemon and
    the exit code the event supplied. *)
Theorem attach_to_running_job_complete_run
  (w : world) (nspace : list byte) (st st1 : state)
  (r1 si refi sw refw : Z) (c : list byte) (cs : list (list byte))
  (info : list pmix_info_t) (cbfunc : bool) :
  query_application_namespace w nspace st = (Ret r1, st1) ->
  fst (w_spawn w) = PMIX_SUCCESS ->
  w_iof_registration w = Some (si, refi) ->
  w_watch_registration w = Some (sw, refw) ->
  w_deliveries w = map Chunk (c :: cs) ++ [Termination info cbfunc] ->
  return_object info = Some attach_myrel ->
  iof_registered st = 0 ->
  iof_data st = None ->
  (forall n, 0 < n <= total_size (c :: cs) + 1 ->
             Mem.alloc_ok (w_heap w) n = true) ->
  Mem.size c < INT_MAX ->
  total_size (c :: cs) <= INT_MAX ->
  exists st',
    attach_to_running_job w nspace st = (Ret sw, st')
    /\ iof_data st' = Some (concat (c :: cs) ++ [NUL])
    /\ iof_size st' = total_size (c :: cs)
    /\ iof_handler_id st' = refi
    /\ iof_registered st' = 1
    /\ rel_nspace (myrel st') = c_str (snd (w_spawn w))
    /\ (forall code, supplied_exit_code info = Some code ->
                     exit_code (myrel st') = code
                     /\ exit_code_given (myrel st') = true).
Proof.
  exact (attach_to_running_job_collects w nspace st st1 r1 si refi sw refw
           c cs info cbfunc).
Qed.

Lemma attach_to_running_job_complete_run_witness :
  exists st',
    attach_to_running_job
      (world_of app_1 [Chunk (lit "hello "); Chunk (lit "world");
                       terminated daemon_1 7])
      (lit "launch.1") initial_state = (Ret 0, st')
    /\ iof_data st' = Some (concat [lit "hello "; lit "world"] ++ [NUL])
    /\ iof_size st' = total_size [lit "hello "; lit "world"]
    /\ iof_handler_id st' = 2
    /\ iof_registered st' = 1
    /\ rel_nspace (myrel st') = c_str (lit "debug.1")
    /\ (forall code,
           supplied_exit_code
             [ load_pointer PMIX_EVENT_RETURN_OBJECT (Some attach_myrel);
               load_int32 PMIX_EXIT_CODE 7;
               load_proc PMIX_EVENT_AFFECTED_PROC daemon_1 ] = Some code ->
           exit_code (myrel st') = code /\ exit_code_given (myrel st') = true).
Proof.
  apply (attach_to_running_job_complete_run
           (world_of app_1 [Chunk (lit "hello "); Chunk (lit "world");
                            terminated daemon_1 7])
           (lit "launch.1") initial_state
           (snd (query_application_namespace
                   (world_of app_1 [Chunk (lit "hello "); Chunk (lit "world");
                                    terminated daemon_1 7])
                   (lit "launch.1") initial_state))
           0 PMIX_SUCCESS 2 PMIX_SUCCESS 3 (lit "hello ") [lit "world"]
           [ load_pointer PMIX_EVENT_RETURN_OBJECT (Some attach_myrel);
             load_int32 PMIX_EXIT_CODE 7;
             load_proc PMIX_EVENT_AFFECTED_PROC daemon_1 ] true).
  - vm_compute. reflexivity.
  - reflexivity.
  - reflexivity.
  - reflexivity.
  - reflexivity.
  - vm_compute. reflexivity.
  - reflexivity.
  - reflexivity.
  - intros n _. reflexivity.
  - vm_compute. reflexivity.
  - vm_compute. discriminate.
Defined.

(** ** What [main] displays *)

Lemma evhandler_reg_callbk_buffer (status ref : Z) (cbdata : pointer)
  (st st' : state) (r : result unit) :
  evhandler_reg_callbk status ref cbdata st = (r, st') ->
  iof_data st' = iof_data st.
Proof.
  unfold evhandler_reg_callbk, wakeup_thread, update_lock, bind, when, emit,
    modify, get, ret.
  destruct (status =? PMIX_SUCCESS); destruct cbdata as [lock|]; cbn;
    intros H; injection H as _ <-; reflexivity.
Qed.

(** The last thing a returning [main] does: it displays the buffer the
    attach sequence left, with ["%s"], or nothing after the finalisation
    when there is no buffer. *)
Lemma main_displays (w : world) (argv : list (list byte)) (st st' : state)
  (rc : Z) :
  main w argv st = (Ret rc, st') ->
  exists s5 s6 a,
    attach_to_running_job w (c_str (nth 1 argv [])) s5 = (Ret a, s6)
    /\ iof_data s5 = iof_data st
    /\ last (trace st') finalize_call
       = match iof_data s6 with
         | Some text => Forwarded_stdio (c_str text)
         | None => finalize_call
         end.
Proof.
  unfold main. intros H.
  destruct (Z.of_nat (length argv) <? 2); [peel H; discriminate H|].
  destruct (negb (PMIX_SUCCESS =? w_tool_init w)); [do 2 peel H; discriminate H|].
  peel_as H u1 t1 E1. peel_as H u2 t2 E2. peel_as H u3 t3 E3.
  peel_as H u4 t4 E4.
  injection E1 as _ <-. injection E2 as _ <-. injection E3 as _ <-.
  assert (Hd4 : iof_data t4 = iof_data st).
  { destruct (w_default_registration w) as [[sd refd]|]; cbn [fire] in E4.
    - apply evhandler_reg_callbk_buffer in E4. exact E4.
    - injection E4 as _ <-. reflexivity. }
  clear E4.
  peel_as H u5 t5 E5. unfold wait_thread, bind, get, ret, halt in E5.
  cbn beta iota in E5.
  destruct (signaled (locks t4 main_mylock)); [|discriminate E5].
  injection E5 as _ <-.
  peel_as H a6 t6 E6. exists t4, t6, a6. split; [exact E6|].
  split; [exact Hd4|].
  peel_as H u7 t7 E7. peel_as H a8 t8 E8. peel_as H u9 t9 E9.
  peel_as H u10 t10 E10. peel_as H a11 t11 E11. peel_as H u12 t12 E12.
  injection H as _ <-.
  assert (H7 : iof_data t7 = iof_data t6).
  { destruct (negb (PMIX_SUCCESS =? a6)); injection E7 as _ <-; reflexivity. }
  injection E8 as <- <-. injection E9 as _ <-. injection E10 as _ <-.
  injection E11 as <- <-.
  cbn [iof_data with_trace] in E12. rewrite H7 in E12.
  destruct (iof_data t6) as [text|]; injection E12 as _ <-;
    cbn [trace with_trace]; apply last_last.
Qed.

(** X3.  What [main] displays when it returns, in a process that starts
    without a buffer.  When the spawn was refused it displays no forwarded
    output: the run ends with the finalisation.  When the runtime delivered
    chunks of output and then the termination of the daemon, the last
    thing [main] does is to display, with ["%s"], the forwarded bytes up
    to their first zero byte: all of them when no byte is zero, a truncated
    output otherwise. *)
Theorem main_displays_forwarded_text
  (w : world) (argv : list (list byte)) (st st' : state) (rc : Z) :
  main w argv st = (Ret rc, st') ->
  iof_data st = None ->
  (fst (w_spawn w) <> PMIX_SUCCESS ->
   last (trace st') finalize_call = finalize_call)
  /\ (forall (c : list byte) (cs : list (list byte))
             (info : list pmix_info_t) (cbfunc : bool),
         fst (w_spawn w) = PMIX_SUCCESS ->
         w_deliveries w = map Chunk (c :: cs) ++ [Termination info cbfunc] ->
         return_object info = Some attach_myrel ->
         (forall n, 0 < n <= total_size (c :: cs) + 1 ->
                    Mem.alloc_ok (w_heap w) n = true) ->
         Mem.size c < INT_MAX ->
         total_size (c :: cs) <= INT_MAX ->
         last (trace st') finalize_call
         = Forwarded_stdio (c_str (concat (c :: cs)))
         /\ (Forall (fun b => b <> NUL) (concat (c :: cs)) ->
             last (trace st') finalize_call
             = Forwarded_stdio (concat (c :: cs)))).
Proof.
  intros H Hnull.
  destruct (main_displays w argv st st' rc H)
    as (s5 & s6 & a & Hatt & Hd5 & Hlast).
  rewrite Hnull in Hd5. split.
  - intros Hs.
    destruct (attach_to_running_job_refused w _ s5 s6 a Hs Hatt)
      as (st1 & r1 & Hq & _ & _ & _ & Hd6).
    destruct (query_application_namespace_frame _ _ _ _ _ Hq)
      as (_ & _ & Hd1 & _).
    rewrite Hd6, Hd1, Hd5 in Hlast. exact Hlast.
  - intros c cs info cbfunc Hs Hdel Hobj Hok Hc Hfit.
    destruct (attach_to_running_job_returns w _ s5 s6 a Hs Hatt)
      as (st1 & r1 & si & refi & refw & Hq & Hi & Hw & Hreg1 & _).
    destruct (query_application_namespace_frame _ _ _ _ _ Hq)
      as (_ & _ & _ & _ & Hr1 & _).
    rewrite Hr1 in Hreg1.
    destruct (attach_to_running_job_collects w _ s5 st1 r1 si refi a refw
                c cs info cbfunc Hq Hs Hi Hw Hdel Hobj Hreg1 Hd5 Hok Hc Hfit)
      as (s6' & Hrun & Hdata & _).
    rewrite Hatt in Hrun. injection Hrun as <-.
    rewrite Hdata in Hlast. rewrite Hlast, c_str_terminated.
    split; [reflexivity|]. intros Hclean. now rewrite c_str_no_NUL.
Qed.

(** The daemon writes ["ab"], a zero byte and ["cd"], then ["ef"]: [main]
    displays ["ab"].  After a refused spawn it displays nothing. *)
Lemma main_displays_forwarded_text_witness :
  last (trace (snd (main zero_byte_output command_line initial_state)))
       finalize_call
  = Forwarded_stdio (lit "ab")
  /\ last (trace (snd (main spawn_refused command_line initial_state)))
          finalize_call
     = finalize_call.
Proof.
  split.
  - destruct (proj2 (main_displays_forwarded_text zero_byte_output command_line
                       initial_state
                       (snd (main zero_byte_output command_line initial_state))
                       0 ltac:(vm_compute; reflexivity) eq_refl)
                (lit "ab" ++ [NUL] ++ lit "cd") [lit "ef"]
                [ load_pointer PMIX_EVENT_RETURN_OBJECT (Some attach_myrel);
                  load_int32 PMIX_EXIT_CODE 0;
                  load_proc PMIX_EVENT_AFFECTED_PROC daemon_1 ] true)
      as [Hshown _].
    + reflexivity.
    + reflexivity.
    + vm_compute. reflexivity.
    + intros n _. reflexivity.
    + vm_compute. reflexivity.
    + vm_compute. discriminate.
    + exact Hshown.
  - apply (proj1 (main_displays_forwarded_text spawn_refused command_line
                    initial_state
                    (snd (main spawn_refused command_line initial_state))
                    0 ltac:(vm_compute; reflexivity) eq_refl)).
    vm_compute. discriminate.
Defined.
